(** * PDF word-frequency analyzer: the extraction-and-filtering pipeline

    A shallow embedding of [analyzer/filters.py], [analyzer/reader.py] and
    [analyzer/processor.py], with the properties of the filtering,
    chunking, aggregation and error paths proved about it.

    Conventions.
    - A Python [str] is a [string]; its characters stand for code points, so
      [String.length] is Python's [len].
    - A Python [int] is a [Z]; [//] is [Z.div] (both round to minus infinity).
    - A [dict] from words to counts is a [gmap string Z]; a [set] is a [gset].
    - A call that may raise returns a [result]; [try]/[except] is written out.
    - Library calls the code delegates to (langdetect, pypdf, [os], [re]) are
      section variables. *)

From stdpp Require Import gmap strings list fin_maps.
From stdpp Require Import pretty sorting.

Open Scope Z_scope.

(** ** Exceptions and results *)

Inductive exn : Type :=
  | ValueError
  | OSError
  | PdfReadError
  | LangDetectException.

Inductive result (A : Type) : Type :=
  | Ok (a : A)
  | Raise (e : exn).
Arguments Ok {A} a.
Arguments Raise {A} e.

Definition is_ok {A} (r : result A) : bool :=
  match r with Ok _ => true | Raise _ => false end.

(** ** analyzer/filters.py *)

Module Filters.

(** The process-local state of a worker: the [lru_cache] of
    [_detect_language_cached], most recently used entry first, and the
    trace of the words [langdetect.detect] was really called on. *)
Record lang_state : Type := LangState {
  cache : list (string * option string);
  detector_calls : list string
}.

Definition fresh_state : lang_state := LangState [] [].

(** Computations over the worker state that may raise. *)
Definition M (A : Type) : Type := lang_state → result A * lang_state.

Definition ret {A} (a : A) : M A := λ st, (Ok a, st).

Definition bind {A B} (m : M A) (k : A → M B) : M B :=
  λ st, match m st with
        | (Ok a, st') => k a st'
        | (Raise e, st') => (Raise e, st')
        end.

(** [try: body except Exception: handler] *)
Definition try_except {A} (body : M A) (handler : exn → M A) : M A :=
  λ st, match body st with
        | (Ok a, st') => (Ok a, st')
        | (Raise e, st') => handler e st'
        end.

Global Instance M_ret : MRet M := @ret.
Global Instance M_bind : MBind M := λ A B k m, bind m k.

(** [@lru_cache(maxsize=50000)] *)
Definition maxsize : nat := Z.to_nat 50000.

Fixpoint cache_find (w : string) (c : list (string * option string))
  : option (option string) :=
  match c with
  | [] => None
  | (k, r) :: c' => if decide (k = w) then Some r else cache_find w c'
  end.

Definition cache_remove (w : string) (c : list (string * option string))
  : list (string * option string) :=
  filter (λ kr, kr.1 ≠ w) c.

(** The decorator: a hit returns the stored value and makes the entry the
    most recent one; a miss runs the function, stores a returned value and
    drops the least recently used entry beyond [maxsize]; an exception of
    the function is not stored. *)
Definition lru_cache (f : string → M (option string)) (w : string)
  : M (option string) :=
  λ st, match cache_find w (cache st) with
        | Some r =>
            (Ok r, LangState ((w, r) :: cache_remove w (cache st))
                             (detector_calls st))
        | None =>
            match f w st with
            | (Ok r, st') =>
                (Ok r, LangState (take maxsize ((w, r) :: cache st'))
                                 (detector_calls st'))
            | (Raise e, st') => (Raise e, st')
            end
        end.

Section WithDetector.

(** [langdetect.detect], deterministic since [DetectorFactory.seed = 0]. *)
Variable detect : string → result string.

(** One real call of the detector, recorded in the trace. *)
Definition call_detect (w : string) : M string :=
  λ st, (detect w, LangState (cache st) (detector_calls st ++ [w])).

Definition _detect_language_body (w : string) : M (option string) :=
  try_except (l ← call_detect w; ret (Some l)) (λ _, ret None).

Definition _detect_language_cached : string → M (option string) :=
  lru_cache _detect_language_body.

Definition filter_word_by_language (word : string)
    (target_lang_codes : list string) : M bool :=
  if (Z.of_nat (String.length word) <? 3) then ret false
  else
    detected_lang ← _detect_language_cached word;
    match detected_lang with
    | None => ret false
    | Some l => ret (bool_decide (l ∈ target_lang_codes))
    end.

(** [bool(target_lang_codes)] for an [Optional[List[str]]]. *)
Definition truthy_list {A} (o : option (list A)) : bool :=
  match o with
  | None | Some [] => false
  | Some (_ :: _) => true
  end.

(** The [for word in raw_words] loop, with [filtered_words] as accumulator. *)
Fixpoint filter_loop (raw_words : list string) (excluded_set : gset string)
    (target_lang_codes : option (list string)) (filtered_words : list string)
  : M (list string) :=
  match raw_words with
  | [] => ret filtered_words
  | word :: rest =>
      if bool_decide (word ∈ excluded_set)
         || (Z.of_nat (String.length word) <? 2)
      then filter_loop rest excluded_set target_lang_codes filtered_words
      else
        match truthy_list target_lang_codes, target_lang_codes with
        | true, Some targets =>
            keep ← filter_word_by_language word targets;
            if negb keep
            then filter_loop rest excluded_set target_lang_codes filtered_words
            else filter_loop rest excluded_set target_lang_codes
                             (filtered_words ++ [word])
        | _, _ =>
            filter_loop rest excluded_set target_lang_codes
                        (filtered_words ++ [word])
        end
  end.

Definition filter_word_list
    (args : list string * gset string * option (list string))
  : M (list string) :=
  let '(raw_words, excluded_set, target_lang_codes) := args in
  filter_loop raw_words excluded_set target_lang_codes [].

End WithDetector.

(** [min_freq <= freq <= max_freq], where the pipeline may pass
    [float("inf")] as upper bound. *)
Inductive bound : Type :=
  | Int (z : Z)
  | Inf.

Definition le_bound (c : Z) (b : bound) : Prop :=
  match b with
  | Int z => c ≤ z
  | Inf => True
  end.

Global Instance le_bound_dec c b : Decision (le_bound c b).
Proof. destruct b; simpl; apply _. Defined.

Definition filter_by_frequency_range (frequency_dict : gmap string Z)
    (min_freq : Z) (max_freq : bound) : gmap string Z :=
  filter (λ wf, min_freq ≤ wf.2 ∧ le_bound wf.2 max_freq) frequency_dict.

Definition filter_by_exact_frequency (frequency_dict : gmap string Z)
    (exact_freqs : list Z) : gmap string Z :=
  let exact_freqs_set : gset Z := list_to_set exact_freqs in
  filter (λ wf, wf.2 ∈ exact_freqs_set) frequency_dict.

(** [Counter] counts one element: [self[elem] = self.get(elem, 0) + 1]. *)
Definition counter_add (m : gmap string Z) (elem : string) : gmap string Z :=
  <[elem := default 0 (m !! elem) + 1]> m.

(** [dict(Counter(words))]: one pass over the words. *)
Definition count_frequencies (words : list string) : gmap string Z :=
  foldl counter_add ∅ words.

End Filters.

(** ** analyzer/reader.py *)

Module Reader.

(** [str.endswith] *)
Fixpoint endswith (s suffix : string) : bool :=
  if String.eqb s suffix then true
  else match s with
       | EmptyString => false
       | String _ s' => endswith s' suffix
       end.

(** What the logger is called with. *)
Inductive log_event : Type :=
  | TotalFiles (total : Z)
  | UsingThreads (max_workers_io : Z)
  | FileRead (file_name : string) (completed total : Z)
  | ReadFailed (file_name : string) (e : exn)
  | FileSkipped (completed total : Z).

(** The objects the worker threads share: the [texts] list, the [_Counter]
    and the output of the logger. *)
Record shared : Type := Shared {
  texts : list string;
  counter : Z;
  log : list log_event
}.

(** Where a thread running [_read_single_pdf] stands: not started; text
    extracted, about to take [texts_lock]; about to take [counter_lock];
    returned. *)
Inductive thread : Type :=
  | Pending (pdf_file_path : string)
  | Appending (pdf_file_path : string) (local_text : string)
  | Counting (pdf_file_path : string) (outcome : result string)
  | Done (pdf_file_path : string) (outcome : result string).

Section WithFiles.

(** [os.path.isfile], [os.path.isdir], [os.listdir], [os.path.abspath],
    [os.path.join], [os.path.basename], [str.lower]. *)
Variable isfile isdir : string → bool.
Variable listdir : string → result (list string).
Variable abspath basename lower : string → string.
Variable path_join : string → string → string.

(** [pypdf.PdfReader(path).pages]: the document fails as a whole, or gives
    its pages, each with the outcome of [extract_text()]. *)
Variable PdfReader : string → result (list (result string)).

Definition find_pdf_files (input_path : string) : result (list string) :=
  if isfile input_path && endswith (lower input_path) ".pdf"
  then Ok [abspath input_path]
  else if isdir input_path
  then
    let directory := abspath input_path in
    match listdir directory with
    | Ok entries =>
        Ok (path_join directory <$>
              filter (λ entry, endswith (lower entry) ".pdf" = true) entries)
    | Raise e => Raise e
    end
  else Raise ValueError.

(** [page.extract_text() or " "], with a failing page replaced by [" "]. *)
Definition page_text (page : result string) : string :=
  match page with
  | Ok text => if String.eqb text "" then " " else text
  | Raise _ => " "
  end.

(** The part of [_read_single_pdf] before the first lock: the outcome of
    the [try] block up to [local_text]. *)
Definition extract_local_text (pdf_file_path : string) : result string :=
  match PdfReader pdf_file_path with
  | Ok pages => Ok (String.concat " " (page_text <$> pages))
  | Raise e => Raise e
  end.

(** [_read_single_pdf] in small steps: what the thread does next, up to
    and including its next access to a shared object. *)
Definition _read_single_pdf (total_count : Z) (t : thread) (sh : shared)
  : thread * shared :=
  match t with
  | Pending p =>
      match extract_local_text p with
      | Ok local_text => (Appending p local_text, sh)
      | Raise e =>
          (Counting p (Raise e),
           Shared (texts sh) (counter sh)
                  (log sh ++ [ReadFailed (basename p) e]))
      end
  | Appending p local_text =>
      (Counting p (Ok local_text),
       Shared (texts sh ++ [local_text]) (counter sh) (log sh))
  | Counting p outcome =>
      let c := counter sh + 1 in
      (Done p outcome,
       Shared (texts sh) c
              (log sh ++ [match outcome with
                          | Ok _ => FileRead (basename p) c total_count
                          | Raise _ => FileSkipped c total_count
                          end]))
  | Done p outcome => (Done p outcome, sh)
  end.

(** The thread pool: the threads in submission order and what they share.
    A schedule names, tick by tick, the thread that takes the next step. *)
Definition pool : Type := list thread * shared.

Definition pool_step (total_count : Z) (i : nat) (st : pool) : pool :=
  match st.1 !! i with
  | Some t =>
      let '(t', sh') := _read_single_pdf total_count t st.2 in
      (<[i := t']> st.1, sh')
  | None => st
  end.

Definition run_schedule (total_count : Z) (sched : list nat) (st : pool)
  : pool :=
  foldl (λ st i, pool_step total_count i st) st sched.

Definition finish_thread (total_count : Z) (t : thread) (sh : shared)
  : thread * shared :=
  let '(t1, sh1) := _read_single_pdf total_count t sh in
  let '(t2, sh2) := _read_single_pdf total_count t1 sh1 in
  _read_single_pdf total_count t2 sh2.

(** Leaving the [with ThreadPoolExecutor] block waits for every submitted
    task: the threads the schedule left unfinished run to their end. *)
Fixpoint join_threads (total_count : Z) (ts : list thread) (sh : shared)
  : pool :=
  match ts with
  | [] => ([], sh)
  | t :: ts' =>
      let '(t', sh') := finish_thread total_count t sh in
      let '(ts'', sh'') := join_threads total_count ts' sh' in
      (t' :: ts'', sh'')
  end.

(** Returns the value (or exception) of the call and the final pool. Any
    interleaving of the threads is some schedule; the bound [max_workers_io]
    only rules some of them out. A pool of no threads is refused by
    [ThreadPoolExecutor]. *)
Definition read_pdfs_in_parallel (sched : list nat)
    (pdf_file_paths : list string) (max_workers_io : Z)
  : result string * pool :=
  match pdf_file_paths with
  | [] => (Ok "", ([], Shared [] 0 []))
  | _ :: _ =>
      let total_count := Z.of_nat (length pdf_file_paths) in
      let sh0 := Shared [] 0 [TotalFiles total_count;
                              UsingThreads max_workers_io] in
      if max_workers_io <=? 0 then (Raise ValueError, ([], sh0))
      else
        let st := run_schedule total_count sched
                    (Pending <$> pdf_file_paths, sh0) in
        let st' := join_threads total_count st.1 st.2 in
        (Ok (String.concat " " (texts st'.2)), st')
  end.

End WithFiles.

End Reader.

(** ** analyzer/processor.py *)

Module Processor.
Import Filters Reader.

(** [str.isspace] on one character (code points below 256). *)
Definition isspace (a : Ascii.ascii) : bool :=
  let n := Ascii.N_of_ascii a in
  ((9 <=? n) && (n <=? 13) || (28 <=? n) && (n <=? 32)
   || (n =? 133) || (n =? 160))%N.

Fixpoint lstrip (s : string) : string :=
  match s with
  | EmptyString => EmptyString
  | String a s' => if isspace a then lstrip s' else s
  end.

Fixpoint rstrip (s : string) : string :=
  match s with
  | EmptyString => EmptyString
  | String a s' =>
      let r := rstrip s' in
      if String.eqb r "" && isspace a then EmptyString else String a r
  end.

(** [str.strip()] *)
Definition strip (s : string) : string := rstrip (lstrip s).

(** [x or alt] for an optional integer: [None] and [0] are falsy. *)
Definition or_int (x : option Z) (alt : Z) : Z :=
  match x with
  | Some z => if z =? 0 then alt else z
  | None => alt
  end.

(** [range(0, stop, step)] for [step >= 1]. *)
Definition range_step (stop step : nat) : list nat :=
  (λ k, k * step)%nat <$> seq 0 ((stop + step - 1) / step)%nat.

(** [[raw_words[i : i + chunk_size] for i in range(0, len(raw_words), chunk_size)]] *)
Definition word_chunks (raw_words : list string) (chunk_size : nat)
  : list (list string) :=
  (λ i, take chunk_size (drop i raw_words)) <$>
    range_step (length raw_words) chunk_size.

Definition chunk_size (n num_processes : Z) : Z :=
  Z.max 1 (n / num_processes + 1).

Section WithEnvironment.

Variable isfile isdir : string → bool.
Variable listdir : string → result (list string).
Variable abspath basename lower : string → string.
Variable path_join : string → string → string.
Variable PdfReader : string → result (list (result string)).
Variable detect : string → result string.

(** [re.findall(r"\b\w+\b", text, re.UNICODE)] and [os.cpu_count()]. *)
Variable findall_words : string → list string.
Variable cpu_count : option Z.

Definition num_processes (max_workers_cpu : option Z) : Z :=
  or_int max_workers_cpu (or_int cpu_count 4).

(** [executor.map(filter_word_list, arguments)] consumed in full: the
    results come in the order of the arguments. Argument number [k] runs
    on the worker process the schedule names, which keeps its own language
    cache from one chunk to the next; an exception in a worker is raised
    again when its result is reached. *)
Fixpoint executor_map (sched : list nat) (k : nat)
    (workers : list lang_state)
    (arguments : list (list string * gset string * option (list string)))
  : result (list (list string)) :=
  match arguments with
  | [] => Ok []
  | args :: rest =>
      let i := (default 0%nat (sched !! k) `mod` length workers)%nat in
      match filter_word_list detect args (default fresh_state (workers !! i))
      with
      | (Ok out, st') =>
          match executor_map sched (S k) (<[i := st']> workers) rest with
          | Ok outs => Ok (out :: outs)
          | Raise e => Raise e
          end
      | (Raise e, _) => Raise e
      end
  end.

(** Phase 2 from [num_processes] on: chunking, the process pool (which
    refuses a pool of no processes) and [itertools.chain.from_iterable]. *)
Definition parallel_filter (sched : list nat) (raw_words : list string)
    (excluded_set : gset string) (target_lang_codes : option (list string))
    (num_processes : Z) : result (list string) :=
  let chunk_size :=
    chunk_size (Z.of_nat (length raw_words)) num_processes in
  let word_chunks := word_chunks raw_words (Z.to_nat chunk_size) in
  let arguments :=
    (λ chunk, (chunk, excluded_set, target_lang_codes)) <$> word_chunks in
  if num_processes <=? 0 then Raise ValueError
  else
    match executor_map sched 0
            (replicate (Z.to_nat num_processes) fresh_state) arguments with
    | Ok results => Ok (concat results)
    | Raise e => Raise e
    end.

(** Phase 3. *)
Definition frequency_filter (word_frequency : gmap string Z)
    (min_freq max_freq : option Z) (exact_freqs : option (list Z))
  : gmap string Z :=
  if truthy_list exact_freqs
  then filter_by_exact_frequency word_frequency (default [] exact_freqs)
  else if bool_decide (is_Some min_freq) || bool_decide (is_Some max_freq)
  then
    let min_f := default 0 min_freq in
    let max_f := from_option Int Inf max_freq in
    filter_by_frequency_range word_frequency min_f max_f
  else word_frequency.

(** The main analysis function. [io_sched] and [cpu_sched] fix the
    interleaving of the reader threads and the placement of the chunks on
    the worker processes. *)
Definition calculate_word_frequency_and_filter
    (io_sched cpu_sched : list nat)
    (input_path : string) (excluded_words : list string)
    (target_lang_codes : option (list string))
    (min_freq max_freq : option Z) (exact_freqs : option (list Z))
    (max_workers_io : Z) (max_workers_cpu : option Z)
  : result (Z * gmap string Z) :=
  match find_pdf_files isfile isdir listdir abspath lower path_join input_path
  with
  | Raise ValueError => Ok (0, ∅)
  | Raise e => Raise e
  | Ok [] => Ok (0, ∅)
  | Ok pdf_file_paths =>
      match (read_pdfs_in_parallel basename PdfReader io_sched
               pdf_file_paths max_workers_io).1 with
      | Raise e => Raise e
      | Ok all_text =>
          if String.eqb (strip all_text) "" then Ok (0, ∅)
          else
            let raw_words := findall_words (lower all_text) in
            let excluded_set : gset string :=
              list_to_set (lower <$> excluded_words) in
            match parallel_filter cpu_sched raw_words excluded_set
                    target_lang_codes (num_processes max_workers_cpu) with
            | Raise e => Raise e
            | Ok filtered_words =>
                let total_valid_word_count :=
                  Z.of_nat (length filtered_words) in
                let word_frequency := count_frequencies filtered_words in
                Ok (total_valid_word_count,
                    frequency_filter word_frequency min_freq max_freq
                                     exact_freqs)
            end
      end
  end.

End WithEnvironment.

End Processor.

(** ** The specification's reading of the filters *)

Module Spec.

Section WithDetector.

Variable detect : string → result string.

(** "any detector failure yields no classification" *)
Definition detection (w : string) : option string :=
  match detect w with
  | Ok l => Some l
  | Raise _ => None
  end.

(** LanguageClassifier.classify: words shorter than 3 characters are
    rejected, otherwise the detector's answer, if any. *)
Definition classify (w : string) : option string :=
  if (String.length w <? 3)%nat then None else detection w.

(** ChunkFilter's three rules for one word. *)
Definition keep (excluded : gset string) (targets : option (list string))
    (w : string) : bool :=
  negb (bool_decide (w ∈ excluded))
  && (2 <=? String.length w)%nat
  && match targets with
     | Some (t :: ts) =>
         match classify w with
         | Some l => bool_decide (l ∈ t :: ts)
         | None => false
         end
     | _ => true
     end.

(** Every cached answer is the detector's answer for that word. *)
Definition coherent (st : Filters.lang_state) : Prop :=
  Forall (λ kr, kr.2 = detection kr.1) (Filters.cache st).

End WithDetector.

(** The sum of the values of a frequency map. *)
Definition freq_sum (m : gmap string Z) : Z :=
  map_fold (λ _ c acc, c + acc) 0 m.

(** No frequency filter is active. *)
Definition no_frequency_filter (min_freq max_freq : option Z)
    (exact_freqs : option (list Z)) : Prop :=
  Filters.truthy_list exact_freqs = false ∧ min_freq = None ∧ max_freq = None.

(** [ceil(n / w)] for [w >= 1]. *)
Definition ceil_div (n w : Z) : Z := (n + w - 1) / w.

(** The text is empty or consists of whitespace only. *)
Fixpoint whitespace_only (s : string) : bool :=
  match s with
  | EmptyString => true
  | String a s' => Processor.isspace a && whitespace_only s'
  end.

(** What reading a file gives, said with the PDF library alone: a page
    that fails or has no text stands for a single space; the text of a
    document is the texts of its pages in page order, joined by spaces; a
    document that cannot be opened has no text at all. *)
Definition page_or_space (page : result string) : string :=
  match page with
  | Ok text => if decide (text = "") then " " else text
  | Raise _ => " "
  end.

Definition document_text (pages : list (result string)) : string :=
  String.concat " " (page_or_space <$> pages).

Definition file_outcome (PdfReader : string → result (list (result string)))
    (p : string) : result string :=
  match PdfReader p with
  | Ok pages => Ok (document_text pages)
  | Raise e => Raise e
  end.

(** The texts of the files that can be opened, in path order. *)
Definition readable_texts (PdfReader : string → result (list (result string)))
    (paths : list string) : list string :=
  omap (λ p, match PdfReader p with
             | Ok pages => Some (document_text pages)
             | Raise _ => None
             end) paths.

Section WithReader.

Variable PdfReader : string → result (list (result string)).

(** The texts of the files whose extraction succeeded, in path order. *)
Definition successful_texts (paths : list string) : list string :=
  omap (λ p, match Reader.extract_local_text PdfReader p with
             | Ok text => Some text
             | Raise _ => None
             end) paths.

Definition path_of (t : Reader.thread) : string :=
  match t with
  | Reader.Pending p | Reader.Appending p _
  | Reader.Counting p _ | Reader.Done p _ => p
  end.

(** What a thread has put into [texts] so far. *)
Definition appended (t : Reader.thread) : list string :=
  match t with
  | Reader.Counting _ (Ok text) | Reader.Done _ (Ok text) => [text]
  | _ => []
  end.

(** What a thread has added to the progress counter so far. *)
Definition counted (t : Reader.thread) : Z :=
  match t with
  | Reader.Done _ _ => 1
  | _ => 0
  end.

(** A thread carries the outcome of the extraction of its own file. *)
Definition thread_ok (t : Reader.thread) : Prop :=
  match t with
  | Reader.Pending _ => True
  | Reader.Appending p text => Reader.extract_local_text PdfReader p = Ok text
  | Reader.Counting p r | Reader.Done p r =>
      r = Reader.extract_local_text PdfReader p
  end.

Definition is_done (t : Reader.thread) : Prop :=
  t = Reader.Done (path_of t) (Reader.extract_local_text PdfReader (path_of t)).

Definition sum_counted (ts : list Reader.thread) : Z :=
  foldr (λ t acc, counted t + acc) 0 ts.

(** The invariant of the thread pool: the shared list holds what the
    threads appended, in some order, and the counter what they counted. *)
Definition pool_inv (paths : list string) (st : Reader.pool) : Prop :=
  path_of <$> st.1 = paths
  ∧ Forall thread_ok st.1
  ∧ Reader.texts st.2 ≡ₚ concat (appended <$> st.1)
  ∧ Reader.counter st.2 = sum_counted st.1.

End WithReader.

Section WithEnvironment.

Variable isfile isdir : string → bool.
Variable listdir : string → result (list string).
Variable abspath basename lower : string → string.
Variable path_join : string → string → string.
Variable PdfReader : string → result (list (result string)).
Variable detect : string → result string.
Variable findall_words : string → list string.
Variable cpu_count : option Z.

(** The run up to the end of the parallel filter phase: the list of words
    that phase produces, or [None] when the run ends before it with the
    empty result. *)
Definition filter_phase (io_sched cpu_sched : list nat)
    (input_path : string) (excluded_words : list string)
    (target_lang_codes : option (list string))
    (max_workers_io : Z) (max_workers_cpu : option Z)
  : result (option (list string)) :=
  match Reader.find_pdf_files isfile isdir listdir abspath lower path_join
          input_path with
  | Raise ValueError => Ok None
  | Raise e => Raise e
  | Ok [] => Ok None
  | Ok paths =>
      match (Reader.read_pdfs_in_parallel basename PdfReader io_sched paths
               max_workers_io).1 with
      | Raise e => Raise e
      | Ok all_text =>
          if whitespace_only all_text then Ok None
          else
            match Processor.parallel_filter detect cpu_sched
                    (findall_words (lower all_text))
                    (list_to_set (lower <$> excluded_words))
                    target_lang_codes
                    (Processor.num_processes cpu_count max_workers_cpu) with
            | Raise e => Raise e
            | Ok filtered_words => Ok (Some filtered_words)
            end
      end
  end.

End WithEnvironment.

(** Every chunk but the last has [size] elements; the last has between one
    and [size]. *)
Definition chunks_of_size (size : Z) (chunks : list (list string)) : Prop :=
  ∀ k chunk, chunks !! k = Some chunk →
    if decide (S k < length chunks)%nat
    then Z.of_nat (length chunk) = size
    else 1 ≤ Z.of_nat (length chunk) ≤ size.

End Spec.

(** ** A small concrete environment

    A file system with one directory of two PDF files (one unreadable), an
    empty directory and a blank PDF; an ASCII stand-in for [str.lower] and
    for the tokenizer; a detector that knows three words. *)

Module Scenario.

Definition isfile (p : string) : bool :=
  bool_decide (p ∈ ["blank.pdf"; "notes.txt"]).

Definition isdir (p : string) : bool :=
  bool_decide (p ∈ ["corpus"; "empty_dir"]).

Definition abspath (p : string) : string := "/data/" +:+ p.

Definition path_join (d e : string) : string := d +:+ "/" +:+ e.

Definition listdir (d : string) : result (list string) :=
  if String.eqb d "/data/corpus" then Ok ["a.pdf"; "notes.txt"; "b.PDF"]
  else if String.eqb d "/data/empty_dir" then Ok ["notes.txt"]
  else Raise OSError.

Fixpoint basename_from (acc s : string) : string :=
  match s with
  | EmptyString => acc
  | String a s' =>
      if String.eqb (String a "") "/" then basename_from "" s'
      else basename_from (acc +:+ String a "") s'
  end.

Definition basename (p : string) : string := basename_from "" p.

Definition lower_char (a : Ascii.ascii) : Ascii.ascii :=
  let n := Ascii.N_of_ascii a in
  if ((65 <=? n) && (n <=? 90))%N then Ascii.ascii_of_N (n + 32) else a.

Fixpoint lower (s : string) : string :=
  match s with
  | EmptyString => EmptyString
  | String a s' => String (lower_char a) (lower s')
  end.

Definition is_word_char (a : Ascii.ascii) : bool :=
  let n := Ascii.N_of_ascii a in
  ((48 <=? n) && (n <=? 57) || (65 <=? n) && (n <=? 90)
   || (97 <=? n) && (n <=? 122) || (n =? 95))%N.

(** The maximal runs of word characters, left to right. *)
Fixpoint findall_from (cur : option string) (s : string) : list string :=
  match s with
  | EmptyString => option_list cur
  | String a s' =>
      if is_word_char a
      then findall_from (Some (default "" cur +:+ String a "")) s'
      else option_list cur ++ findall_from None s'
  end.

Definition findall_words (s : string) : list string := findall_from None s.

Definition PdfReader (p : string) : result (list (result string)) :=
  if String.eqb p "/data/corpus/a.pdf"
  then Ok [Ok "Hello world"; Raise PdfReadError; Ok "hello Bonjour"]
  else if String.eqb p "/data/corpus/b.PDF" then Raise PdfReadError
  else if String.eqb p "/data/blank.pdf" then Ok [Ok ""; Ok " "]
  else Raise OSError.

Definition detect (w : string) : result string :=
  if bool_decide (w ∈ ["hello"; "world"]) then Ok "en"
  else if String.eqb w "bonjour" then Ok "fr"
  else Raise LangDetectException.

Definition cpu_count : option Z := Some 4.

Definition sample_counts : gmap string Z :=
  {["a" := 2; "b" := 5; "c" := 6]}.

(** The pipeline in this environment. *)
Definition analyze :=
  Processor.calculate_word_frequency_and_filter isfile isdir listdir abspath
    basename lower path_join PdfReader detect findall_words cpu_count.

End Scenario.

(** ** Notions used to state further properties *)

Module Notions.

(** How often [w] occurs in [words]. *)
Definition occurrences (w : string) (words : list string) : Z :=
  Z.of_nat (length (filter (λ v : string, v = w) words)).

(** The smaller of two upper bounds. *)
Definition bound_min (b d : Filters.bound) : Filters.bound :=
  match b, d with
  | Filters.Int x, Filters.Int y => Filters.Int (Z.min x y)
  | Filters.Int x, Filters.Inf | Filters.Inf, Filters.Int x => Filters.Int x
  | Filters.Inf, Filters.Inf => Filters.Inf
  end.

(** The words a worker's cache holds an answer for, most recent first. *)
Definition cached_words (st : Filters.lang_state) : list string :=
  (Filters.cache st).*1.

(** The cache and the trace while a fresh worker handles words out of
    [input] that are worth detecting: the cached words are the words the
    detector was called on, each once. *)
Definition tracked (excluded : gset string) (input : list string)
    (st : Filters.lang_state) : Prop :=
  cached_words st ≡ₚ Filters.detector_calls st
  ∧ NoDup (Filters.detector_calls st)
  ∧ Forall (λ w, w ∈ input ∧ (w ∉ excluded) ∧ (3 ≤ String.length w)%nat)
      (Filters.detector_calls st).

(** The progress reports of a log, as pairs (completed, total), and its
    failure reports, as pairs (file name, error), in log order. *)
Definition progress_of (ev : Reader.log_event) : option (Z * Z) :=
  match ev with
  | Reader.FileRead _ completed total
  | Reader.FileSkipped completed total => Some (completed, total)
  | _ => None
  end.

Definition failure_of (ev : Reader.log_event) : option (string * exn) :=
  match ev with
  | Reader.ReadFailed file_name e => Some (file_name, e)
  | _ => None
  end.

Definition progress (log : list Reader.log_event) : list (Z * Z) :=
  omap progress_of log.

Definition failures (log : list Reader.log_event) : list (string * exn) :=
  omap failure_of log.

(** The failure a thread has reported so far. *)
Definition reported (basename : string → string) (t : Reader.thread)
  : list (string * exn) :=
  match t with
  | Reader.Counting p (Raise e) | Reader.Done p (Raise e) => [(basename p, e)]
  | _ => []
  end.

(** The files that cannot be read, with their errors, in path order. *)
Definition failing_files (basename : string → string)
    (PdfReader : string → result (list (result string)))
    (paths : list string) : list (string * exn) :=
  omap (λ p, match Reader.extract_local_text PdfReader p with
             | Ok _ => None
             | Raise e => Some (basename p, e)
             end) paths.

(** The log so far: the failures reported are those of the threads, and
    the progress reports count 1, 2, ... up to the counter. *)
Definition log_inv (basename : string → string) (total : Z)
    (st : Reader.pool) : Prop :=
  failures (Reader.log st.2) ≡ₚ concat (reported basename <$> st.1)
  ∧ 0 ≤ Reader.counter st.2
  ∧ progress (Reader.log st.2)
    = (λ k, (k, total)) <$> seqZ 1 (Reader.counter st.2).

(** A page without text: it fails, or its text is blank. *)
Definition blank_page (page : result string) : Prop :=
  match page with
  | Ok text => Spec.whitespace_only text = true
  | Raise _ => True
  end.

End Notions.

(** ** More of the concrete environment *)

Module Scenario2.

(** A directory that exists and cannot be listed. *)
Definition isdir (p : string) : bool :=
  String.eqb p "locked" || Scenario.isdir p.

(** The pipeline with that directory in the file system. *)
Definition analyze :=
  Processor.calculate_word_frequency_and_filter Scenario.isfile isdir
    Scenario.listdir Scenario.abspath Scenario.basename Scenario.lower
    Scenario.path_join Scenario.PdfReader Scenario.detect
    Scenario.findall_words Scenario.cpu_count.

End Scenario2.

(** ** analyzer/processor.py: writing the report *)

Module Output.

(** The newline character. *)
Definition nl : string := String (Ascii.ascii_of_nat 10) "".

(** [s * n] *)
Fixpoint repeat_string (s : string) (n : nat) : string :=
  match n with
  | O => ""
  | S n' => s +:+ repeat_string s n'
  end.

(** The format specification [{s:<width}]: pad with spaces on the right up
    to [width] characters; a longer string is left as it is. *)
Definition ljust (s : string) (width : nat) : string :=
  s +:+ repeat_string " " (width - String.length s).

(** [sorted(items, key=lambda item: item[1], reverse=True)]: a stable sort
    by descending frequency, as an insertion sort that puts an item after
    the items of greater frequency and before those of equal or smaller
    frequency that follow it in the input. *)
Fixpoint insert_by_frequency (item : string * Z) (l : list (string * Z))
  : list (string * Z) :=
  match l with
  | [] => [item]
  | other :: l' =>
      if other.2 <=? item.2 then item :: other :: l'
      else other :: insert_by_frequency item l'
  end.

Definition sorted_by_frequency (items : list (string * Z))
  : list (string * Z) :=
  foldr insert_by_frequency [] items.

(** The values handed to [json.dump]. *)
Unset Elimination Schemes.
Inductive json : Type :=
  | JString (s : string)
  | JInt (z : Z)
  | JObject (fields : list (string * json))
  | JArray (items : list json).
Set Elimination Schemes.

(** What is printed to the console. *)
Inductive message : Type :=
  | ResultsWritten (filename format_name : string)
  | UnsupportedFormat (output_format : string).

(** What [write_output] does to the outside world, in order. *)
Inductive action : Type :=
  | MakeDirs (directory : string)
  | WriteFile (filename content : string)
  | Print (m : message).

Definition txt_header (total_count : Z) : string :=
  "--- Word Analysis Results ---" +:+ nl
  +:+ "Total Valid Word Count: " +:+ pretty total_count +:+ nl
  +:+ repeat_string "=" 35 +:+ nl
  +:+ ljust "Word" 25 +:+ ljust "Frequency" 10 +:+ nl
  +:+ repeat_string "-" 35 +:+ nl.

Definition txt_line (item : string * Z) : string :=
  ljust item.1 25 +:+ ljust (pretty item.2) 10 +:+ nl.

Fixpoint concat_strings (l : list string) : string :=
  match l with
  | [] => ""
  | s :: l' => s +:+ concat_strings l'
  end.

Section WithOs.

(** [os.path.dirname], [os.path.exists]; the text [csv.writer] writes for
    one row; [json.dump(..., ensure_ascii=False, indent=4)]; and
    [time.strftime("%Y-%m-%d %H:%M:%S")] at the time of the call. *)
Variable dirname : string → string.
Variable path_exists : string → bool.
Variable csv_row : list string → string.
Variable json_dump : json → string.
Variable strftime : string.

Definition csv_content (sorted_data : list (string * Z)) : string :=
  csv_row ["Word"; "Frequency"]
  +:+ concat_strings ((λ item, csv_row [item.1; pretty item.2])
                        <$> sorted_data).

Definition json_content (total_count : Z) (sorted_data : list (string * Z))
  : string :=
  json_dump
    (JObject
       [("metadata",
         JObject [("total_valid_word_count", JInt total_count);
                  ("analysis_time", JString strftime)]);
        ("frequency_list",
         JArray ((λ item, JObject [("word", JString item.1);
                                   ("frequency", JInt item.2)])
                   <$> sorted_data))]).

(** [write_output], with the dictionary given by its items in iteration
    order, as the list of things it does as long as the file system lets
    it. *)
Definition write_output (frequency_dict : list (string * Z))
    (total_count : Z) (output_format : string) (filename : option string)
  : list action :=
  let sorted_data := sorted_by_frequency frequency_dict in
  let filename :=
    match filename with
    | Some name =>
        if String.eqb name ""
        then "word_analysis_output." +:+ output_format
        else name
    | None => "word_analysis_output." +:+ output_format
    end in
  let directory := dirname filename in
  (if negb (String.eqb directory "") && negb (path_exists directory)
   then [MakeDirs directory] else [])
  ++
  if String.eqb output_format "txt"
  then [WriteFile filename
          (txt_header total_count
           +:+ concat_strings (txt_line <$> sorted_data));
        Print (ResultsWritten filename "TXT")]
  else if String.eqb output_format "csv"
  then [WriteFile filename (csv_content sorted_data);
        Print (ResultsWritten filename "CSV")]
  else if String.eqb output_format "json"
  then [WriteFile filename (json_content total_count sorted_data);
        Print (ResultsWritten filename "JSON")]
  else [Print (UnsupportedFormat output_format)].

End WithOs.

End Output.

(** ** analyzer/cli.py *)

Module Cli.

(** The namespace [parse_args] returns. [freq_range] holds the two integers
    of [-r], [exact_freq] the one or more integers of [-ex]. *)
Record args : Type := Args {
  input : string;
  exclude : list string;
  exclude_file : option string;
  freq_range : option (Z * Z);
  exact_freq : option (list Z);
  lang : list string;
  output_format : string;
  filename : option string
}.

(** What the command line interface prints itself; the lines of
    [log_progress] are left out, as in the pipeline. *)
Inductive message : Type :=
  | ExcludeFileNotFound (excluded_file : string)
  | ExcludeFileUnreadable (excluded_file : string) (e : exn)
  | NoResultsMatched
  | CriticalError (e : exn).

Inductive event : Type :=
  | Say (m : message)
  | Do (a : Output.action).

Section WithEnvironment.

Variable isfile isdir : string → bool.
Variable listdir : string → result (list string).
Variable abspath basename lower : string → string.
Variable path_join : string → string → string.
Variable PdfReader : string → result (list (result string)).
Variable detect : string → result string.
Variable findall_words : string → list string.
Variable cpu_count : option Z.

(** [open(path, "r", encoding="utf-8").readlines()] *)
Variable readlines : string → result (list string).

(** The items of a dictionary in its iteration order. *)
Variable dict_items : gmap string Z → list (string * Z).

Variable dirname : string → string.
Variable path_exists : string → bool.
Variable csv_row : list string → string.
Variable json_dump : Output.json → string.
Variable strftime : string.

(** Returns the list and what it printed. *)
Definition load_excluded_words (inline_excluded : list string)
    (excluded_file : option string) : list string * list message :=
  let excluded_list := lower <$> inline_excluded in
  match excluded_file with
  | None => (excluded_list, [])
  | Some path =>
      if String.eqb path "" then (excluded_list, [])
      else if negb (isfile path)
      then (excluded_list, [ExcludeFileNotFound path])
      else
        match readlines path with
        | Ok lines =>
            let file_words :=
              (λ line, lower (Processor.strip line))
                <$> filter (λ line, Processor.strip line ≠ "") lines in
            (excluded_list ++ file_words, [])
        | Raise e => (excluded_list, [ExcludeFileUnreadable path e])
        end
  end.

(** The block "Prepare frequency settings" of [main]: [min_f], [max_f] and
    [exact_f]. *)
Definition frequency_settings (a : args)
  : option Z * option Z * option (list Z) :=
  match freq_range a with
  | Some (lo, hi) => (Some lo, Some hi, None)
  | None =>
      if Filters.truthy_list (exact_freq a)
      then (None, None, exact_freq a)
      else (None, None, None)
  end.

(** The call of the pipeline in [main]. *)
Definition run_analysis (io_sched cpu_sched : list nat) (a : args)
    (excluded_words : list string) : result (Z * gmap string Z) :=
  let '(min_f, max_f, exact_f) := frequency_settings a in
  Processor.calculate_word_frequency_and_filter isfile isdir listdir
    abspath basename lower path_join PdfReader detect findall_words
    cpu_count io_sched cpu_sched (input a) excluded_words
    (Some (lower <$> lang a)) min_f max_f exact_f 8
    (Some (Processor.or_int cpu_count 4)).

(** [main]: what it prints and does, and the exception it ends with, if
    any. The schedules fix the interleavings inside the pipeline. *)
Definition main (io_sched cpu_sched : list nat) (a : args)
  : list event * result () :=
  let '(excluded_words, printed) :=
    load_excluded_words (exclude a) (exclude_file a) in
  match run_analysis io_sched cpu_sched a excluded_words with
  | Raise e => (Say <$> printed, Raise e)
  | Ok (total_count, final_frequency) =>
      if (0 <? total_count) && bool_decide (final_frequency ≠ ∅)
      then
        ((Say <$> printed)
         ++ (Do <$> Output.write_output dirname path_exists csv_row json_dump
                      strftime (dict_items final_frequency) total_count
                      (output_format a) (filename a)),
         Ok ())
      else ((Say <$> printed) ++ [Say NoResultsMatched], Ok ())
  end.

(** The [if __name__ == "__main__"] block. *)
Definition entry_point (io_sched cpu_sched : list nat) (a : args)
  : list event :=
  match main io_sched cpu_sched a with
  | (events, Ok _) => events
  | (events, Raise e) => events ++ [Say (CriticalError e)]
  end.

End WithEnvironment.

End Cli.

(** ** Notions about the report and the command line *)

Module Report.

(** The names of the files a list of actions writes, and the directories
    it creates, in order. *)
Definition files_written (acts : list Output.action) : list string :=
  omap (λ a, match a with
             | Output.WriteFile name _ => Some name
             | _ => None
             end) acts.

Definition dirs_made (acts : list Output.action) : list string :=
  omap (λ a, match a with
             | Output.MakeDirs d => Some d
             | _ => None
             end) acts.

(** The name the report goes to: the given one, or the default one when
    none or an empty one is given. *)
Definition effective_filename (output_format : string)
    (filename : option string) : string :=
  match filename with
  | Some name =>
      if String.eqb name "" then "word_analysis_output." +:+ output_format
      else name
  | None => "word_analysis_output." +:+ output_format
  end.

Definition supported (output_format : string) : bool :=
  bool_decide (output_format ∈ ["txt"; "csv"; "json"]).

(** The actions among the events of a run of the command line. *)
Definition actions_of (events : list Cli.event) : list Output.action :=
  omap (λ ev, match ev with
              | Cli.Do a => Some a
              | Cli.Say _ => None
              end) events.

End Report.

(** ** A file system with a torn document *)

Module Scenario4.

Definition isfile (p : string) : bool :=
  String.eqb p "torn.pdf" || Scenario.isfile p.

(** The first page of the torn document cannot be extracted, the others
    hold no word. *)
Definition PdfReader (p : string) : result (list (result string)) :=
  if String.eqb p "/data/torn.pdf"
  then Ok [Raise PdfReadError; Ok " "; Ok ""]
  else Scenario.PdfReader p.

Definition analyze :=
  Processor.calculate_word_frequency_and_filter isfile Scenario.isdir
    Scenario.listdir Scenario.abspath Scenario.basename Scenario.lower
    Scenario.path_join PdfReader Scenario.detect Scenario.findall_words
    Scenario.cpu_count.

End Scenario4.

(** ** A concrete environment for the command line *)

Module Scenario3.

Definition isfile (p : string) : bool :=
  String.eqb p "stop.txt" || Scenario.isfile p.

Definition readlines (p : string) : result (list string) :=
  if String.eqb p "stop.txt"
  then Ok ["The" +:+ Output.nl; "  " +:+ Output.nl; " World  " +:+ Output.nl]
  else Raise OSError.

(** Dictionary order is not modelled: the items come in the order of the
    map. *)
Definition dict_items (m : gmap string Z) : list (string * Z) :=
  map_to_list m.

Fixpoint dirname_from (seen last s : string) : string :=
  match s with
  | EmptyString => last
  | String a s' =>
      if String.eqb (String a "") "/"
      then dirname_from (seen +:+ "/") seen s'
      else dirname_from (seen +:+ String a "") last s'
  end.

Definition dirname (p : string) : string := dirname_from "" "" p.

Definition path_exists (p : string) : bool := String.eqb p "out".

Definition csv_row (fields : list string) : string :=
  String.concat "," fields +:+ Output.nl.

(** The renderer only tells the top-level keys apart. *)
Definition json_dump (j : Output.json) : string :=
  match j with
  | Output.JObject fields => "{" +:+ String.concat "," fields.*1 +:+ "}"
  | _ => ""
  end.

Definition strftime : string := "2024-01-01 00:00:00".

Definition entry_point :=
  Cli.entry_point isfile Scenario.isdir Scenario.listdir Scenario.abspath
    Scenario.basename Scenario.lower Scenario.path_join Scenario.PdfReader
    Scenario.detect Scenario.findall_words Scenario.cpu_count readlines
    dict_items dirname path_exists csv_row json_dump strftime.

End Scenario3.

(** ** Properties of analyzer/filters.py *)

Module FiltersFacts.
Import Filters Spec.

Lemma bind_ok {A B} (m : M A) (k : A → M B) st a st' :
  m st = (Ok a, st') → (m ≫= k) st = k a st'.
Proof. intros H. unfold mbind, M_bind, bind. by rewrite H. Qed.

Lemma cache_find_elem w c r : cache_find w c = Some r → (w, r) ∈ c.
Proof.
  induction c as [|[k r'] c IH]; simpl; [done|].
  case_decide as Hk.
  - intros [= ->]. subst k. left.
  - intros H. right. auto.
Qed.

(** The loop appended the word: the accumulator [acc ++ [w]] in front of
    the rest is [acc] in front of [w] and the rest. *)
Ltac snoc_step IH :=
  match goal with
  | Hc : coherent _ ?st |- context [filter_loop _ _ _ _ (?acc ++ [?w]) ?st] =>
      let H := fresh in
      destruct (IH (acc ++ [w]) st Hc) as (?st' & H & ?);
      rewrite <-(assoc_L (++)) in H; eauto
  end.

Section WithDetector.

Variable detect : string → result string.

Lemma coherent_fresh : coherent detect fresh_state.
Proof. constructor. Qed.

(** A miss runs the detector once and never raises. *)
Lemma detect_body_run w st :
  _detect_language_body detect w st
  = (Ok (detection detect w),
     LangState (cache st) (detector_calls st ++ [w])).
Proof.
  unfold _detect_language_body, try_except, mbind, M_bind, bind, call_detect,
    detection, mret, M_ret, ret.
  by destruct (detect w).
Qed.

Lemma detect_cached_run w st :
  coherent detect st →
  ∃ st', _detect_language_cached detect w st = (Ok (detection detect w), st')
         ∧ coherent detect st'.
Proof.
  intros Hc. unfold _detect_language_cached, lru_cache.
  destruct (cache_find w (cache st)) as [r|] eqn:Hf.
  - apply cache_find_elem in Hf.
    unfold coherent in Hc. rewrite Forall_forall in Hc.
    pose proof (Hc _ Hf) as Hr. simpl in Hr. subst r.
    eexists. split; [reflexivity|].
    unfold coherent. simpl. constructor; [done|].
    unfold cache_remove. apply Forall_forall. intros x Hx.
    apply list_elem_of_filter in Hx as [_ Hx]. by apply Hc.
  - rewrite detect_body_run. eexists. split; [reflexivity|].
    unfold coherent. cbn [cache]. apply Forall_take. by constructor.
Qed.

(** What [filter_word_by_language] answers, whatever the cache holds. *)
Lemma filter_word_by_language_run w targets st :
  coherent detect st →
  ∃ st', filter_word_by_language detect w targets st
         = (Ok (match classify detect w with
                | Some l => bool_decide (l ∈ targets)
                | None => false
                end), st')
         ∧ coherent detect st'.
Proof.
  intros Hc. unfold filter_word_by_language, classify.
  destruct (Z.ltb_spec (Z.of_nat (String.length w)) 3) as [Hlt|Hge].
  - assert ((String.length w <? 3)%nat = true) as -> by (apply Nat.ltb_lt; lia).
    by exists st.
  - assert ((String.length w <? 3)%nat = false) as -> by (apply Nat.ltb_ge; lia).
    destruct (detect_cached_run w st Hc) as (st' & Hrun & Hc').
    rewrite (bind_ok _ _ _ _ _ Hrun).
    exists st'. by destruct (detection detect w).
Qed.

Lemma filter_loop_run words excluded targets acc st :
  coherent detect st →
  ∃ st', filter_loop detect words excluded targets acc st
         = (Ok (acc ++ List.filter (keep detect excluded targets) words), st')
         ∧ coherent detect st'.
Proof.
  revert acc st. induction words as [|w words IH]; intros acc st Hc.
  - exists st. cbn. by rewrite app_nil_r.
  - cbn [filter_loop List.filter].
    destruct (bool_decide (w ∈ excluded)) eqn:Hex.
    { assert (keep detect excluded targets w = false) as ->
        by (unfold keep; by rewrite Hex).
      cbn [orb]. by apply IH. }
    cbn [orb].
    destruct (Z.ltb_spec (Z.of_nat (String.length w)) 2) as [Hlt|Hge].
    { assert (keep detect excluded targets w = false) as ->.
      { unfold keep. rewrite Hex.
        assert ((2 <=? String.length w)%nat = false) as ->
          by (apply Nat.leb_gt; lia).
        done. }
      by apply IH. }
    assert (keep detect excluded targets w
            = match targets with
              | Some (t :: ts) =>
                  match classify detect w with
                  | Some l => bool_decide (l ∈ t :: ts)
                  | None => false
                  end
              | _ => true
              end) as Hkeep.
    { unfold keep. rewrite Hex.
      assert ((2 <=? String.length w)%nat = true) as ->
        by (apply Nat.leb_le; lia).
      done. }
    destruct targets as [[|t ts]|]; cbn [truthy_list].
    + rewrite Hkeep. snoc_step IH.
    + destruct (filter_word_by_language_run w (t :: ts) st Hc)
        as (st1 & Hrun & Hc1).
      rewrite (bind_ok _ _ _ _ _ Hrun), Hkeep.
      destruct (match classify detect w with
                | Some l => bool_decide (l ∈ t :: ts)
                | None => false
                end); cbn [negb].
      * snoc_step IH.
      * by apply IH.
    + rewrite Hkeep. snoc_step IH.
Qed.

Lemma filter_word_list_run words excluded targets st :
  coherent detect st →
  ∃ st', filter_word_list detect (words, excluded, targets) st
         = (Ok (List.filter (keep detect excluded targets) words), st')
         ∧ coherent detect st'.
Proof. intros Hc. by apply (filter_loop_run words excluded targets []). Qed.

Lemma keep_length excluded targets w :
  keep detect excluded targets w = true → (2 ≤ String.length w)%nat.
Proof.
  unfold keep. rewrite !andb_true_iff. intros [[_ H] _].
  by apply Nat.leb_le.
Qed.

Lemma keep_lang_length excluded targets w :
  truthy_list targets = true →
  keep detect excluded targets w = true → (3 ≤ String.length w)%nat.
Proof.
  unfold keep, classify. destruct targets as [[|t ts]|]; try done.
  intros _. rewrite !andb_true_iff. intros [_ H].
  destruct (Nat.ltb_spec (String.length w) 3); [done|lia].
Qed.

End WithDetector.

End FiltersFacts.

(** ** Properties of analyzer/reader.py *)

Module ReaderFacts.
Import Reader Spec.

Section WithReader.

Variable basename : string → string.
Variable PdfReader : string → result (list (result string)).

Abbreviation step := (_read_single_pdf basename PdfReader).
Abbreviation ok := (thread_ok PdfReader).
Abbreviation inv := (pool_inv PdfReader).

(** One step of a thread adds to the shared objects exactly what it adds
    to the thread's own account. *)
Lemma read_single_pdf_account total t sh t' sh' :
  ok t → step total t sh = (t', sh') →
  ok t' ∧ path_of t' = path_of t
  ∧ (∃ extra, texts sh' = texts sh ++ extra
              ∧ appended t' = appended t ++ extra)
  ∧ counter sh' - counter sh = counted t' - counted t.
Proof.
  intros Hok Hstep. destruct t as [p|p x|p r|p r]; simpl in *.
  - destruct (extract_local_text PdfReader p) as [x|e] eqn:Hx;
      injection Hstep as <- <-; simpl;
      (split_and!; [done..| |lia]); exists []; by rewrite app_nil_r.
  - injection Hstep as <- <-; simpl.
    split_and!; [done..| |lia]. by exists [x].
  - injection Hstep as <- <-; simpl.
    split_and!; [done..| |lia]. exists []. by rewrite !app_nil_r.
  - injection Hstep as <- <-; simpl.
    split_and!; [done..| |lia]. exists []. by rewrite !app_nil_r.
Qed.

Lemma sum_counted_app l1 l2 :
  sum_counted (l1 ++ l2) = sum_counted l1 + sum_counted l2.
Proof. unfold sum_counted. induction l1; simpl; lia. Qed.

Lemma pool_step_inv total paths i st :
  inv paths st → inv paths (pool_step basename PdfReader total i st).
Proof.
  destruct st as [ts sh]. intros (Hp & Hok & Ht & Hc). unfold pool_step.
  simpl in *. destruct (ts !! i) as [t|] eqn:Hi; [|done].
  destruct (step total t sh) as [t' sh'] eqn:Hstep.
  apply list_elem_of_split_length in Hi as (l1 & l2 & -> & ->).
  apply Forall_app in Hok as [Hok1 Hok2].
  apply Forall_cons in Hok2 as [Hokt Hok2'].
  destruct (read_single_pdf_account _ _ _ _ _ Hokt Hstep)
    as (Hokt' & Hpath & (extra & Htx & Happ) & Hcnt).
  rewrite insert_app_r_alt, Nat.sub_diag by lia. simpl.
  split_and!; simpl.
  - rewrite <-Hp, !fmap_app, !fmap_cons. by rewrite Hpath.
  - apply Forall_app. split; [done|]. by constructor.
  - rewrite Htx, Ht, !fmap_app, !fmap_cons, !concat_app, !concat_cons, Happ.
    solve_Permutation.
  - rewrite sum_counted_app in *. unfold sum_counted in *. simpl in *. lia.
Qed.

Lemma run_schedule_inv total paths sched st :
  inv paths st → inv paths (run_schedule basename PdfReader total sched st).
Proof.
  unfold run_schedule. revert st.
  induction sched as [|i sched IH]; intros st Hst; simpl; [done|].
  apply IH. by apply pool_step_inv.
Qed.

(** Run to its end, a thread is done and has handed in its account. *)
Lemma finish_thread_account total t sh :
  ok t →
  ∃ sh' extra,
    finish_thread basename PdfReader total t sh
    = (Done (path_of t) (extract_local_text PdfReader (path_of t)), sh')
    ∧ texts sh' = texts sh ++ extra
    ∧ appended (Done (path_of t) (extract_local_text PdfReader (path_of t)))
      = appended t ++ extra
    ∧ counter sh' = counter sh + 1 - counted t.
Proof.
  intros Hok. unfold finish_thread.
  destruct t as [p|p x|p r|p r]; simpl in *.
  - destruct (extract_local_text PdfReader p) as [x|e] eqn:Hx; simpl.
    + eexists _, [x]. split_and!; [reflexivity|done..|simpl; lia].
    + eexists _, []. split_and!; [reflexivity|simpl; by rewrite app_nil_r|done|simpl; lia].
  - rewrite Hok. eexists _, [x]. split_and!; [reflexivity|done..|simpl; lia].
  - subst r. eexists _, []. split_and!; [reflexivity|simpl; by rewrite app_nil_r| |simpl; lia].
    by rewrite app_nil_r.
  - subst r. eexists _, []. split_and!; [reflexivity|simpl; by rewrite app_nil_r| |simpl; lia].
    by rewrite app_nil_r.
Qed.

Lemma join_threads_account total ts sh :
  Forall ok ts →
  ∃ sh' extra,
    join_threads basename PdfReader total ts sh
    = ((λ t, Done (path_of t) (extract_local_text PdfReader (path_of t)))
         <$> ts, sh')
    ∧ texts sh' = texts sh ++ extra
    ∧ successful_texts PdfReader (path_of <$> ts)
      ≡ₚ concat (appended <$> ts) ++ extra
    ∧ counter sh' = counter sh + Z.of_nat (length ts) - sum_counted ts.
Proof.
  revert sh. induction ts as [|t ts IH]; intros sh Hok; simpl.
  - exists sh, []. split_and!; [done|by rewrite app_nil_r|done|].
    unfold sum_counted. simpl. lia.
  - apply Forall_cons in Hok as [Hokt Hok'].
    destruct (finish_thread_account total t sh Hokt)
      as (sh1 & e1 & -> & Ht1 & Ha1 & Hc1).
    destruct (IH sh1 Hok') as (sh2 & e2 & -> & Ht2 & Ha2 & Hc2).
    exists sh2, (e1 ++ e2). split_and!.
    + done.
    + by rewrite Ht2, Ht1, (assoc_L (++)).
    + unfold successful_texts in *. simpl.
      assert (match extract_local_text PdfReader (path_of t) with
              | Ok text => [text]
              | Raise _ => []
              end = appended t ++ e1) as Hhead by exact Ha1.
      transitivity ((appended t ++ e1)
                    ++ (concat (appended <$> ts) ++ e2)).
      * rewrite <-Hhead, <-Ha2.
        by destruct (extract_local_text PdfReader (path_of t)).
      * rewrite <-!(assoc_L (++)). apply Permutation_app_head.
        rewrite !(assoc_L (++)). apply Permutation_app_tail.
        apply Permutation_app_comm.
    + unfold sum_counted in *. simpl. lia.
Qed.

(** Whatever the interleaving, a call with some paths and a pool of at
    least one thread returns the texts of the readable files, space-joined
    in the order the threads appended them, with every file counted. *)
Lemma read_pdfs_in_parallel_run sched paths max_workers_io :
  1 ≤ max_workers_io →
  ∃ order st,
    read_pdfs_in_parallel basename PdfReader sched paths max_workers_io
    = (Ok (String.concat " " order), st)
    ∧ order ≡ₚ successful_texts PdfReader paths
    ∧ texts st.2 = order
    ∧ counter st.2 = Z.of_nat (length paths)
    ∧ Forall (is_done PdfReader) st.1
    ∧ path_of <$> st.1 = paths.
Proof.
  intros Hmw. unfold read_pdfs_in_parallel.
  destruct paths as [|p paths].
  { exists [], ([], Shared [] 0 []). by split_and!. }
  assert ((max_workers_io <=? 0) = false) as -> by lia.
  set (total := Z.of_nat (length (p :: paths))).
  set (sh0 := Shared [] 0 [TotalFiles total; UsingThreads max_workers_io]).
  assert (inv (p :: paths) (Pending <$> p :: paths, sh0)) as Hinit.
  { unfold pool_inv. simpl. split_and!.
    - f_equal. rewrite <-list_fmap_compose. by rewrite list_fmap_id.
    - constructor; [done|]. apply Forall_fmap, Forall_true. done.
    - assert (∀ l : list string, concat (appended <$> (Pending <$> l)) = [])
        as -> by (induction l; auto).
      done.
    - unfold sum_counted. simpl.
      assert (∀ l : list string,
                foldr (λ t acc, counted t + acc) 0 (Pending <$> l) = 0)
        as -> by (induction l; simpl; auto).
      done. }
  apply (run_schedule_inv total _ sched) in Hinit.
  destruct (run_schedule basename PdfReader total sched
              (Pending <$> p :: paths, sh0)) as [ts sh].
  destruct Hinit as (Hp & Hok & Ht & Hc). simpl in Hp, Hok, Ht, Hc.
  destruct (join_threads_account total ts sh Hok)
    as (sh' & extra & Hj & Htx & Hall & Hcnt).
  cbn [fst snd]. rewrite Hj. eexists _, _. split; [reflexivity|].
  cbn [fst snd]. split_and!.
  - rewrite Htx, Ht. rewrite Hp in Hall. by rewrite Hall.
  - done.
  - subst total. rewrite Hcnt, Hc, <-Hp, length_fmap. lia.
  - apply Forall_fmap, Forall_true. intros t. by unfold is_done.
  - rewrite <-Hp, <-list_fmap_compose. done.
Qed.

(** The extraction of the model is the reading of the file as the PDF
    library gives it. *)
Lemma page_text_or_space page : page_text page = page_or_space page.
Proof.
  destruct page as [text|e]; [|done]. cbn [page_text page_or_space].
  destruct (String.eqb_spec text "") as [->|Hne]; [done|].
  by rewrite decide_False.
Qed.

Lemma extract_local_text_outcome p :
  extract_local_text PdfReader p = file_outcome PdfReader p.
Proof.
  unfold extract_local_text, file_outcome, document_text.
  destruct (PdfReader p) as [pages|e]; [|done]. do 2 f_equal.
  apply list_fmap_ext. intros _ page _. apply page_text_or_space.
Qed.

Lemma successful_texts_readable paths :
  successful_texts PdfReader paths = readable_texts PdfReader paths.
Proof.
  unfold successful_texts, readable_texts.
  apply list_omap_ext, Forall2_same_length_lookup_2; [done|].
  intros i p q Hp Hq. assert (p = q) as <- by congruence.
  rewrite extract_local_text_outcome. unfold file_outcome.
  by destruct (PdfReader p).
Qed.

Lemma done_threads ts :
  Forall (is_done PdfReader) ts →
  ts = (λ p, Done p (file_outcome PdfReader p)) <$> (path_of <$> ts).
Proof.
  induction 1 as [|t ts Ht _ IH]; [done|].
  rewrite !fmap_cons, <-IH, <-extract_local_text_outcome. by f_equal.
Qed.

(** A complete call, said with the PDF library alone. *)
Lemma read_pdfs_result sched paths max_workers_io :
  1 ≤ max_workers_io →
  ∃ order st,
    read_pdfs_in_parallel basename PdfReader sched paths max_workers_io
    = (Ok (String.concat " " order), st)
    ∧ order ≡ₚ readable_texts PdfReader paths
    ∧ texts st.2 = order
    ∧ counter st.2 = Z.of_nat (length paths)
    ∧ st.1 = (λ p, Done p (file_outcome PdfReader p)) <$> paths.
Proof.
  intros Hmw.
  destruct (read_pdfs_in_parallel_run sched paths max_workers_io Hmw)
    as (order & st & Hrun & Hperm & Htexts & Hcnt & Hdone & Hpaths).
  exists order, st. split_and!; [done| |done..|].
  - by rewrite <-successful_texts_readable.
  - rewrite <-Hpaths. by apply done_threads.
Qed.

(** One readable file gives its document text, whatever pages fail. *)
Lemma read_single_document sched p pages max_workers_io :
  1 ≤ max_workers_io → PdfReader p = Ok pages →
  (read_pdfs_in_parallel basename PdfReader sched [p] max_workers_io).1
  = Ok (document_text pages).
Proof.
  intros Hmw Hp.
  destruct (read_pdfs_result sched [p] max_workers_io Hmw)
    as (order & st & -> & Hperm & _).
  unfold readable_texts in Hperm. cbn [omap list_omap] in Hperm.
  rewrite Hp in Hperm. apply Permutation_singleton_r in Hperm as ->.
  done.
Qed.

End WithReader.

End ReaderFacts.

(** ** Properties of analyzer/processor.py *)

Module ProcessorFacts.
Import Filters Reader Processor Spec.

(** *** Whitespace *)

Lemma lstrip_whitespace s : whitespace_only s = true → lstrip s = "".
Proof.
  induction s as [|a s IH]; simpl; [done|].
  rewrite andb_true_iff. intros [-> Hs]. auto.
Qed.

Lemma rstrip_empty s : rstrip s = "" → whitespace_only s = true.
Proof.
  induction s as [|a s IH]; simpl; [done|].
  destruct (rstrip s) as [|b r]; simpl; [|done].
  destruct (isspace a); simpl; [auto|done].
Qed.

Lemma lstrip_whitespace_inv s :
  whitespace_only (lstrip s) = true → whitespace_only s = true.
Proof.
  induction s as [|a s IH]; simpl; [done|].
  destruct (isspace a) eqn:Ha; simpl; [auto|].
  by rewrite Ha.
Qed.

Lemma strip_empty_iff s : strip s = "" ↔ whitespace_only s = true.
Proof.
  unfold strip. split.
  - intros H. by apply lstrip_whitespace_inv, rstrip_empty.
  - intros H. by rewrite lstrip_whitespace.
Qed.

(** *** Chunking *)

Lemma or_int_nonzero x alt : alt ≠ 0 → or_int x alt ≠ 0.
Proof.
  intros Halt. unfold or_int. destruct x as [z|]; [|done].
  destruct (Z.eqb_spec z 0); done.
Qed.

Lemma chunk_size_pos n w : 1 ≤ chunk_size n w.
Proof. unfold chunk_size. lia.  Qed.

Lemma chunk_size_eq n w : 0 ≤ n → 1 ≤ w → chunk_size n w = n / w + 1.
Proof.
  intros Hn Hw. unfold chunk_size.
  assert (0 ≤ n / w) by (apply Z.div_pos; lia). lia.
Qed.

(** The chunks cover the list once the indices reach its end. *)
Lemma concat_slices (m cs : nat) (words : list string) :
  (1 ≤ cs)%nat → (length words ≤ m * cs)%nat →
  concat ((λ i, take cs (drop i words)) <$>
            ((λ k, k * cs)%nat <$> seq 0 m)) = words.
Proof.
  intros Hcs. revert words.
  induction m as [|m IH]; intros words Hlen; simpl in *.
  - destruct words; [done|simpl in Hlen; lia].
  - rewrite <-fmap_S_seq, <-!list_fmap_compose.
    specialize (IH (drop cs words)).
    rewrite length_drop, <-list_fmap_compose in IH.
    transitivity (take cs words ++ drop cs words); [|apply take_drop].
    rewrite <-IH by lia. f_equal. f_equal.
    apply list_fmap_ext. intros _ k _. simpl.
    rewrite drop_drop. do 2 f_equal.
Qed.

Lemma range_step_length stop step :
  length (range_step stop step) = ((stop + step - 1) / step)%nat.
Proof. unfold range_step. by rewrite length_fmap, length_seq. Qed.

Lemma div_up_covers (n cs : nat) :
  (1 ≤ cs)%nat → (n ≤ (n + cs - 1) / cs * cs)%nat.
Proof.
  intros Hcs.
  pose proof (Nat.div_mod_eq (n + cs - 1) cs).
  pose proof (Nat.mod_upper_bound (n + cs - 1) cs). nia.
Qed.

Lemma word_chunks_concat words cs :
  (1 ≤ cs)%nat → concat (word_chunks words cs) = words.
Proof.
  intros Hcs. unfold word_chunks, range_step.
  apply concat_slices; [done|]. by apply div_up_covers.
Qed.

Lemma word_chunks_length words cs :
  length (word_chunks words cs) = ((length words + cs - 1) / cs)%nat.
Proof. unfold word_chunks. by rewrite length_fmap, range_step_length. Qed.

Lemma word_chunks_lookup words cs k :
  (k < (length words + cs - 1) / cs)%nat →
  word_chunks words cs !! k = Some (take cs (drop (k * cs) words)).
Proof.
  intros Hk. unfold word_chunks, range_step.
  rewrite !list_lookup_fmap, lookup_seq_lt by done. done.
Qed.

(** Every chunk but the last is full; the last is not empty. *)
Lemma word_chunks_sizes words cs k chunk :
  (1 ≤ cs)%nat → word_chunks words cs !! k = Some chunk →
  chunk = take cs (drop (k * cs) words)
  ∧ (if decide (S k < length (word_chunks words cs))%nat
     then length chunk = cs
     else (1 ≤ length chunk ≤ cs)%nat
          ∧ length chunk = (length words - k * cs)%nat).
Proof.
  intros Hcs Hk.
  assert (k < (length words + cs - 1) / cs)%nat as Hlt.
  { rewrite <-word_chunks_length. by eapply lookup_lt_Some. }
  rewrite word_chunks_lookup in Hk by done. injection Hk as <-.
  split; [done|]. rewrite length_take, length_drop, word_chunks_length.
  pose proof (Nat.div_mod_eq (length words + cs - 1) cs).
  pose proof (Nat.mod_upper_bound (length words + cs - 1) cs).
  case_decide; nia.
Qed.

Lemma word_chunks_count_le n w :
  0 ≤ n → 1 ≤ w →
  ((Z.to_nat n + Z.to_nat (chunk_size n w) - 1) / Z.to_nat (chunk_size n w)
   ≤ Z.to_nat w)%nat.
Proof.
  intros Hn Hw. rewrite chunk_size_eq by done.
  assert (0 ≤ n / w) by (apply Z.div_pos; lia).
  pose proof (Z.div_mod n w ltac:(lia)).
  pose proof (Z.mod_pos_bound n w ltac:(lia)).
  set (cs := Z.to_nat (n / w + 1)).
  assert (n < w * (n / w + 1)) by nia.
  assert (Z.to_nat n < Z.to_nat w * cs)%nat.
  { subst cs. rewrite <-Z2Nat.inj_mul by lia. apply Z2Nat.inj_lt; lia. }
  assert (1 ≤ cs)%nat by (subst cs; lia).
  apply Nat.lt_succ_r, Nat.Div0.div_lt_upper_bound. nia.
Qed.

(** *** The process pool *)

Lemma filter_concat {A} (f : A → bool) (ls : list (list A)) :
  concat (List.filter f <$> ls) = List.filter f (concat ls).
Proof.
  induction ls as [|l ls IH]; simpl; [done|].
  rewrite List.filter_app. f_equal. exact IH.
Qed.

Section WithDetector.

Variable detect : string → result string.

(** Each chunk comes back filtered, in the order of the chunks, wherever
    the schedule places it. *)
Lemma executor_map_run sched k workers chunks excluded targets :
  Forall (coherent detect) workers →
  executor_map detect sched k workers
    ((λ chunk, (chunk, excluded, targets)) <$> chunks)
  = Ok (List.filter (keep detect excluded targets) <$> chunks).
Proof.
  revert k workers.
  induction chunks as [|chunk chunks IH]; intros k workers Hw; simpl; [done|].
  set (i := (default 0%nat (sched !! k) `mod` length workers)%nat).
  assert (coherent detect (default fresh_state (workers !! i))) as Hc.
  { destruct (workers !! i) as [st|] eqn:Hi; simpl.
    - by eapply (Forall_lookup_1 _ _ _ _ Hw).
    - apply FiltersFacts.coherent_fresh. }
  destruct (FiltersFacts.filter_word_list_run detect chunk excluded targets
              _ Hc) as (st' & Hrun & Hc').
  simpl in Hrun. rewrite Hrun.
  rewrite IH; [done|]. by apply Forall_insert.
Qed.

Lemma parallel_filter_run sched words excluded targets w :
  1 ≤ w →
  parallel_filter detect sched words excluded targets w
  = Ok (List.filter (keep detect excluded targets) words).
Proof.
  intros Hw. unfold parallel_filter.
  assert ((w <=? 0) = false) as -> by lia.
  rewrite executor_map_run.
  - rewrite filter_concat, word_chunks_concat; [done|].
    pose proof (chunk_size_pos (Z.of_nat (length words)) w). lia.
  - apply Forall_replicate, FiltersFacts.coherent_fresh.
Qed.

(** A pool without processes is refused, and nothing is filtered. *)
Lemma parallel_filter_refused sched words excluded targets w :
  w ≤ 0 →
  parallel_filter detect sched words excluded targets w = Raise ValueError.
Proof.
  intros Hw. unfold parallel_filter.
  by assert ((w <=? 0) = true) as -> by lia.
Qed.

End WithDetector.

(** *** Counting and the frequency filters *)

Lemma freq_sum_empty : freq_sum ∅ = 0.
Proof. apply map_fold_empty. Qed.

Lemma freq_sum_insert_fresh (m : gmap string Z) w c :
  m !! w = None → freq_sum (<[w := c]> m) = c + freq_sum m.
Proof.
  intros Hw. unfold freq_sum.
  rewrite map_fold_insert_L; [done| |done]. intros. lia.
Qed.

Lemma freq_sum_insert (m : gmap string Z) w c :
  freq_sum (<[w := c]> m) = c + freq_sum m - default 0 (m !! w).
Proof.
  destruct (m !! w) as [c0|] eqn:Hw; simpl.
  - rewrite <-(insert_delete_eq m w c).
    rewrite freq_sum_insert_fresh by apply lookup_delete_eq.
    rewrite <-(insert_delete_id m w c0) at 2 by done.
    rewrite (freq_sum_insert_fresh (delete w m)) by apply lookup_delete_eq.
    lia.
  - rewrite freq_sum_insert_fresh by done. lia.
Qed.

Lemma counting_run words (m : gmap string Z) :
  freq_sum (foldl counter_add m words)
  = freq_sum m + Z.of_nat (length words).
Proof.
  revert m. induction words as [|w words IH]; intros m; simpl; [lia|].
  rewrite IH. unfold counter_add. rewrite freq_sum_insert. lia.
Qed.

Lemma count_frequencies_sum words :
  freq_sum (count_frequencies words) = Z.of_nat (length words).
Proof.
  unfold count_frequencies.
  by rewrite counting_run, freq_sum_empty.
Qed.

Lemma counting_keys words (m : gmap string Z) w c :
  foldl counter_add m words !! w = Some c → w ∈ words ∨ is_Some (m !! w).
Proof.
  revert m. induction words as [|v words IH]; intros m; simpl.
  - intros H. right. by eexists.
  - intros H. apply IH in H as [H|H]; [left; by right|].
    unfold counter_add in H. destruct (decide (v = w)) as [->|Hne].
    + left. left.
    + rewrite lookup_insert_ne in H by done. by right.
Qed.

Lemma count_frequencies_keys words w c :
  count_frequencies words !! w = Some c → w ∈ words.
Proof.
  unfold count_frequencies. intros H.
  apply counting_keys in H as [H|[? H]]; [done|].
  by rewrite lookup_empty in H.
Qed.

Lemma counting_positive words (m : gmap string Z) :
  map_Forall (λ _ c, 0 < c) m →
  map_Forall (λ _ c, 0 < c) (foldl counter_add m words).
Proof.
  revert m. induction words as [|v words IH]; intros m Hm; simpl; [done|].
  apply IH. unfold counter_add. apply map_Forall_insert_2; [|done].
  destruct (m !! v) as [c|] eqn:Hv; simpl; [|lia].
  specialize (Hm _ _ Hv). simpl in Hm. lia.
Qed.

(** A filter can only take entries away: the sum does not grow. *)
Lemma freq_sum_filter_le (P : string * Z → Prop) `{!∀ x, Decision (P x)}
    (m : gmap string Z) :
  map_Forall (λ _ c, 0 < c) m → freq_sum (filter P m) ≤ freq_sum m.
Proof.
  induction m as [|w c m Hw IH] using map_ind; intros Hpos.
  - by rewrite map_filter_empty.
  - apply map_Forall_insert in Hpos as [Hc Hpos]; [|done].
    specialize (IH Hpos). rewrite freq_sum_insert_fresh by done.
    destruct (decide (P (w, c))).
    + rewrite map_filter_insert_True by done.
      rewrite freq_sum_insert_fresh; [lia|].
      by rewrite map_lookup_filter_None; left.
    + rewrite map_filter_insert_not' by (done || intros; congruence).
      lia.
Qed.

Lemma frequency_filter_subseteq m min_freq max_freq exact_freqs :
  frequency_filter m min_freq max_freq exact_freqs ⊆ m.
Proof.
  unfold frequency_filter, filter_by_exact_frequency,
    filter_by_frequency_range.
  destruct (truthy_list exact_freqs); [apply map_filter_subseteq|].
  destruct (_ || _); [apply map_filter_subseteq|done].
Qed.

Lemma frequency_filter_sum_le m min_freq max_freq exact_freqs :
  map_Forall (λ _ c, 0 < c) m →
  freq_sum (frequency_filter m min_freq max_freq exact_freqs) ≤ freq_sum m.
Proof.
  intros Hpos.
  unfold frequency_filter, filter_by_exact_frequency,
    filter_by_frequency_range.
  destruct (truthy_list exact_freqs); [by apply freq_sum_filter_le|].
  destruct (_ || _); [by apply freq_sum_filter_le|done].
Qed.

Lemma frequency_filter_none m min_freq max_freq exact_freqs :
  no_frequency_filter min_freq max_freq exact_freqs →
  frequency_filter m min_freq max_freq exact_freqs = m.
Proof.
  intros (He & -> & ->). unfold frequency_filter. by rewrite He.
Qed.

(** *** The pipeline *)

Section WithEnvironment.

Variable isfile isdir : string → bool.
Variable listdir : string → result (list string).
Variable abspath basename lower : string → string.
Variable path_join : string → string → string.
Variable PdfReader : string → result (list (result string)).
Variable detect : string → result string.
Variable findall_words : string → list string.
Variable cpu_count : option Z.

Abbreviation find := (find_pdf_files isfile isdir listdir abspath lower path_join).
Abbreviation calc :=
  (calculate_word_frequency_and_filter isfile isdir listdir abspath basename
     lower path_join PdfReader detect findall_words cpu_count).
Abbreviation phase :=
  (filter_phase isfile isdir listdir abspath basename lower path_join
     PdfReader detect findall_words cpu_count).

Lemma strip_eqb text :
  String.eqb (strip text) "" = whitespace_only text.
Proof.
  destruct (whitespace_only text) eqn:Hw.
  - apply String.eqb_eq. by apply strip_empty_iff.
  - apply String.eqb_neq. rewrite strip_empty_iff. congruence.
Qed.

Lemma find_pdf_files_invalid input_path :
  isfile input_path && endswith (lower input_path) ".pdf" = false →
  isdir input_path = false →
  find input_path = Raise ValueError.
Proof. intros H1 H2. unfold find_pdf_files. by rewrite H1, H2. Qed.

(** The result is the pre-filter count and the filtered tally of the words
    the filter phase produced, and the empty result when the run ends
    before that phase. *)
Lemma calculate_shape io cpu input_path excluded targets min_freq max_freq
    exact_freqs mw_io mw_cpu :
  calc io cpu input_path excluded targets min_freq max_freq exact_freqs
       mw_io mw_cpu
  = match phase io cpu input_path excluded targets mw_io mw_cpu with
    | Raise e => Raise e
    | Ok None => Ok (0, ∅)
    | Ok (Some filtered_words) =>
        Ok (Z.of_nat (length filtered_words),
            frequency_filter (count_frequencies filtered_words)
              min_freq max_freq exact_freqs)
    end.
Proof.
  unfold calculate_word_frequency_and_filter, filter_phase.
  destruct (find input_path) as [[|p paths]|[]]; try done.
  destruct (read_pdfs_in_parallel _ _ _ _ _).1 as [text|e]; [|done].
  rewrite strip_eqb. destruct (whitespace_only text); [done|].
  by destruct (parallel_filter _ _ _ _ _ _).
Qed.

Lemma calculate_early io cpu input_path excluded targets min_freq max_freq
    exact_freqs mw_io mw_cpu :
  find input_path = Raise ValueError
  ∨ find input_path = Ok []
  ∨ (∃ paths text,
       find input_path = Ok paths
       ∧ (read_pdfs_in_parallel basename PdfReader io paths mw_io).1 = Ok text
       ∧ whitespace_only text = true) →
  calc io cpu input_path excluded targets min_freq max_freq exact_freqs
       mw_io mw_cpu = Ok (0, ∅).
Proof.
  unfold calculate_word_frequency_and_filter.
  intros [->| [->| (paths & text & -> & Hr & Hw)]]; [done..|].
  destruct paths as [|p paths]; [done|].
  by rewrite Hr, strip_eqb, Hw.
Qed.

(** The words the filter phase hands on are the words of the corpus that
    pass the three rules. *)
Lemma filter_phase_words io cpu input_path excluded targets mw_io mw_cpu
    filtered_words :
  phase io cpu input_path excluded targets mw_io mw_cpu
  = Ok (Some filtered_words) →
  ∃ paths text,
    find input_path = Ok paths
    ∧ (read_pdfs_in_parallel basename PdfReader io paths mw_io).1 = Ok text
    ∧ filtered_words
      = List.filter (keep detect (list_to_set (lower <$> excluded)) targets)
          (findall_words (lower text)).
Proof.
  unfold filter_phase.
  destruct (find input_path) as [[|p paths]|[]] eqn:Hf; try done.
  destruct (read_pdfs_in_parallel _ _ _ _ _).1 as [text|e] eqn:Hr; [|done].
  destruct (whitespace_only text); [done|].
  destruct (decide (1 ≤ num_processes cpu_count mw_cpu)) as [Hn|Hn].
  - rewrite parallel_filter_run by done. intros [= <-]. eauto.
  - by rewrite parallel_filter_refused by lia.
Qed.

Lemma count_frequencies_positive words :
  map_Forall (λ _ c, 0 < c) (count_frequencies words).
Proof. apply counting_positive. apply map_Forall_empty. Qed.

End WithEnvironment.

End ProcessorFacts.

(** ** The claims about the filters *)

Import Filters Reader Processor Spec.

Section FilterClaims.

Variable detect : string → result string.

(** C4. For every list of words, exclusion set and optional target-language
    list, [filter_word_list] returns exactly the words that are not in the
    exclusion set, have length at least 2 and, when the target list is not
    empty, are classified to a language of the target list, in their input
    order (the output is the input list filtered by these three rules); on
    ["the"; "cat"; "a"; "xx"] with exclusion {"the"} and no language filter
    it returns ["cat"; "xx"]. *)
Theorem filter_word_list_keeps_exactly
    (words : list string) (excluded : gset string)
    (targets : option (list string)) (st : lang_state)
    (Hst : coherent detect st) :
  (∃ st', filter_word_list detect (words, excluded, targets) st
          = (Ok (List.filter (keep detect excluded targets) words), st'))
  ∧ (∀ w, (keep detect excluded targets w = true)
          ↔ ((w ∉ excluded)
             ∧ (2 ≤ String.length w)%nat
             ∧ (truthy_list targets = true →
                ∃ l, classify detect w = Some l ∧ l ∈ default [] targets)))
  ∧ filter_word_list detect (["the"; "cat"; "a"; "xx"], {["the"]}, None) st
    = (Ok ["cat"; "xx"], st).
Proof.
  split_and!.
  - destruct (FiltersFacts.filter_word_list_run detect words excluded targets
                st Hst) as (st' & Hrun & _).
    by exists st'.
  - intros w. unfold keep.
    rewrite !andb_true_iff, negb_true_iff, bool_decide_eq_false, Nat.leb_le.
    destruct targets as [[|t ts]|]; simpl.
    + intuition discriminate.
    + destruct (classify detect w) as [l|].
      * rewrite bool_decide_eq_true. split.
        -- intros [[? ?] ?]. eauto.
        -- intros (? & ? & Hl). destruct (Hl eq_refl) as (l' & [= <-] & ?).
           done.
      * split; [intros [_ [=]]|].
        intros (_ & _ & Hl). by destruct (Hl eq_refl) as (? & [=] & _).
    + intuition discriminate.
  - by vm_compute.
Qed.

(** C8. The language check answers [False] for a word of fewer than 3
    characters without calling the detector (the worker state, with its
    trace of detector calls, is unchanged); a detector failure gives "no
    classification", so the word fails the check; and neither the cached
    detection nor the check ever raises. *)
Theorem language_check_never_raises
    (word : string) (targets : list string) (st : lang_state)
    (Hst : coherent detect st) :
  ((String.length word < 3)%nat →
     filter_word_by_language detect word targets st = (Ok false, st))
  ∧ (∀ e, detect word = Raise e →
       (_detect_language_cached detect word st).1 = Ok None
       ∧ (filter_word_by_language detect word targets st).1 = Ok false)
  ∧ (∃ r, (_detect_language_cached detect word st).1 = Ok r)
  ∧ (∃ b, (filter_word_by_language detect word targets st).1 = Ok b).
Proof.
  destruct (FiltersFacts.detect_cached_run detect word st Hst)
    as (st1 & Hd & _).
  destruct (FiltersFacts.filter_word_by_language_run detect word targets st
              Hst) as (st2 & Hf & _).
  split_and!.
  - intros Hlen. unfold filter_word_by_language.
    by assert ((Z.of_nat (String.length word) <? 3) = true) as -> by lia.
  - intros e He. rewrite Hd, Hf. unfold classify, detection. rewrite He.
    split; [done|]. simpl. by destruct (_ <? _)%nat.
  - rewrite Hd. by eexists.
  - rewrite Hf. by eexists.
Qed.

End FilterClaims.

Lemma filter_word_list_keeps_exactly_witness :
  coherent Scenario.detect fresh_state
  ∧ ∃ st', filter_word_list Scenario.detect
             (["hello"; "a"; "bonjour"; "the"; "world"], {["the"]},
              Some ["en"]) fresh_state
           = (Ok ["hello"; "world"], st').
Proof.
  split; [constructor|].
  destruct (filter_word_list_keeps_exactly Scenario.detect
              ["hello"; "a"; "bonjour"; "the"; "world"] {["the"]}
              (Some ["en"]) fresh_state ltac:(constructor))
    as [[st' Hrun] _].
  exists st'. exact Hrun.
Defined.

Lemma language_check_never_raises_witness :
  coherent Scenario.detect fresh_state
  ∧ filter_word_by_language Scenario.detect "ab" ["en"] fresh_state
    = (Ok false, fresh_state)
  ∧ (filter_word_by_language Scenario.detect "zzz" ["en"] fresh_state).1
    = Ok false.
Proof.
  split; [constructor|]. split.
  - apply (language_check_never_raises Scenario.detect "ab" ["en"] fresh_state
             ltac:(constructor)).
    simpl. lia.
  - eapply (language_check_never_raises Scenario.detect "zzz" ["en"] fresh_state
              ltac:(constructor)).
    reflexivity.
Defined.

(** ** The claims about the frequency filters *)

(** C5. The range filter keeps exactly the entries whose count [c]
    satisfies [min <= c <= max], both bounds included: an entry with count
    [min] or [max] is kept (when the range is not empty), one with count
    [min - 1] or [max + 1] is removed. In the pipeline a missing lower
    bound is 0 and a missing upper bound is infinity. *)
Theorem range_filter_inclusive
    (m : gmap string Z) (min max : Z) (w : string) (c : Z)
    (Hc : m !! w = Some c) :
  (filter_by_frequency_range m min (Int max) !! w = Some c ↔ min ≤ c ≤ max)
  ∧ (filter_by_frequency_range m min (Int max) !! w = None
     ↔ ¬ (min ≤ c ≤ max))
  ∧ (∀ w' c', filter_by_frequency_range m min (Int max) !! w' = Some c'
              ↔ m !! w' = Some c' ∧ min ≤ c' ≤ max)
  ∧ (min ≤ max → c = min ∨ c = max →
     filter_by_frequency_range m min (Int max) !! w = Some c)
  ∧ (c = min - 1 ∨ c = max + 1 →
     filter_by_frequency_range m min (Int max) !! w = None)
  ∧ (filter_by_frequency_range m min Inf !! w = Some c ↔ min ≤ c)
  ∧ (∀ exact_freqs, truthy_list exact_freqs = false →
       frequency_filter m (Some min) None exact_freqs
       = filter_by_frequency_range m min Inf
       ∧ frequency_filter m None (Some max) exact_freqs
         = filter_by_frequency_range m 0 (Int max)
       ∧ frequency_filter m (Some min) (Some max) exact_freqs
         = filter_by_frequency_range m min (Int max)).
Proof.
  unfold filter_by_frequency_range.
  assert (∀ b w' c',
            filter (λ wf : string * Z, min ≤ wf.2 ∧ le_bound wf.2 b) m !! w'
            = Some c' ↔ m !! w' = Some c' ∧ min ≤ c' ∧ le_bound c' b) as Hin.
  { intros b w' c'. by rewrite map_lookup_filter_Some. }
  assert (∀ b, filter (λ wf : string * Z, min ≤ wf.2 ∧ le_bound wf.2 b) m !! w
               = None ↔ ¬ (min ≤ c ∧ le_bound c b)) as Hout.
  { intros b. rewrite map_lookup_filter_None. split.
    - intros [Hn|Hn]; [congruence|]. by apply (Hn c).
    - intros Hn. right. intros c' Hc'. simpl. congruence. }
  split_and!.
  - rewrite Hin. simpl. intuition.
  - rewrite Hout. simpl. intuition.
  - intros w' c'. rewrite Hin. simpl. intuition.
  - intros Hle Hb. rewrite Hin. simpl. intuition lia.
  - intros Hb. rewrite Hout. simpl. lia.
  - rewrite Hin. simpl. intuition.
  - intros exact_freqs He. unfold frequency_filter. rewrite He. done.
Qed.

Lemma range_filter_inclusive_witness :
  Scenario.sample_counts !! "b" = Some 5
  ∧ filter_by_frequency_range Scenario.sample_counts 3 (Int 5) !! "b"
    = Some 5.
Proof.
  assert (Scenario.sample_counts !! "b" = Some 5) as Hb
    by (vm_compute; reflexivity).
  split; [exact Hb|].
  destruct (range_filter_inclusive Scenario.sample_counts 3 5 "b" 5 Hb)
    as [Hkept _].
  apply Hkept. lia.
Defined.

(** C6. The exact filter keeps exactly the entries whose count is one of
    the given values (the list is turned into a set first, so repeated
    values change nothing); on {"a": 3, "b": 5, "c": 3} with [3] it
    returns {"a": 3, "c": 3}. *)
Theorem exact_filter_keeps_members
    (m : gmap string Z) (exact_freqs : list Z) (w : string) (c : Z) :
  (filter_by_exact_frequency m exact_freqs !! w = Some c
   ↔ m !! w = Some c ∧ c ∈ exact_freqs)
  ∧ (∀ v, filter_by_exact_frequency m (v :: v :: exact_freqs)
          = filter_by_exact_frequency m (v :: exact_freqs))
  ∧ filter_by_exact_frequency {["a" := 3; "b" := 5; "c" := 3]} [3]
    = {["a" := 3; "c" := 3]}.
Proof.
  unfold filter_by_exact_frequency. split_and!.
  - rewrite map_lookup_filter_Some. simpl.
    by rewrite elem_of_list_to_set.
  - intros v. apply map_filter_ext. intros w' c' _. cbn [snd].
    rewrite !elem_of_list_to_set, !elem_of_cons. tauto.
  - by vm_compute.
Qed.

(** ** The claims about chunking and the process pool *)

(** C3, as the code has it. For a word list of length [n] and a worker
    count [w >= 1] the chunk size is [n // w + 1], which is [ceil(n / w)]
    when [w] does not divide [n] and one more when it does; the chunks are
    the consecutive slices of that size, all full but the last, which is
    shorter or full and never empty; there are at most [w] of them, and
    none for an empty list. *)
Theorem word_chunks_partition
    (words : list string) (w : Z) (Hw : 1 ≤ w) :
  let n := Z.of_nat (length words) in
  let size := chunk_size n w in
  let chunks := word_chunks words (Z.to_nat size) in
  size = n / w + 1
  ∧ (n `mod` w ≠ 0 → size = ceil_div n w)
  ∧ (n `mod` w = 0 → size = ceil_div n w + 1)
  ∧ concat chunks = words
  ∧ (∀ k chunk, chunks !! k = Some chunk →
       chunk = take (Z.to_nat size) (drop (k * Z.to_nat size) words))
  ∧ chunks_of_size size chunks
  ∧ Z.of_nat (length chunks) ≤ w
  ∧ (words = [] → chunks = []).
Proof.
  intros n size chunks.
  assert (0 ≤ n) as Hn by lia.
  assert (size = n / w + 1) as Hsize by (by apply ProcessorFacts.chunk_size_eq).
  assert (1 ≤ Z.to_nat size)%nat as Hpos.
  { pose proof (ProcessorFacts.chunk_size_pos n w). subst size. lia. }
  pose proof (Z.div_mod n w ltac:(lia)) as Hdm.
  pose proof (Z.mod_pos_bound n w ltac:(lia)) as Hmod.
  split_and!.
  - done.
  - intros Hr. rewrite Hsize. unfold ceil_div.
    apply (Z.div_unique_pos _ _ _ (n `mod` w - 1)); lia.
  - intros Hr. rewrite Hsize. unfold ceil_div.
    assert (n / w = (n + w - 1) / w) as <-; [|lia].
    apply (Z.div_unique_pos _ _ _ (w - 1)); lia.
  - by apply ProcessorFacts.word_chunks_concat.
  - intros k chunk Hk.
    by destruct (ProcessorFacts.word_chunks_sizes words _ k chunk Hpos Hk).
  - intros k chunk Hk.
    destruct (ProcessorFacts.word_chunks_sizes words _ k chunk Hpos Hk)
      as [_ Hlen].
    fold chunks in Hlen. destruct (decide (S k < length chunks)%nat); lia.
  - subst chunks. rewrite ProcessorFacts.word_chunks_length.
    pose proof (ProcessorFacts.word_chunks_count_le n w Hn Hw) as Hle.
    subst n size. rewrite Nat2Z.id in Hle. lia.
  - intros ->. subst chunks. apply nil_length_inv.
    rewrite ProcessorFacts.word_chunks_length. cbn [length].
    apply Nat.div_small. lia.
Qed.

Lemma word_chunks_partition_witness :
  1 ≤ 2
  ∧ concat (word_chunks ["a"; "b"; "c"; "d"; "e"]
              (Z.to_nat (chunk_size 5 2))) = ["a"; "b"; "c"; "d"; "e"].
Proof.
  split; [lia|].
  apply (word_chunks_partition ["a"; "b"; "c"; "d"; "e"] 2 ltac:(lia)).
Defined.

(** C3, as the specification words it, fails: four words for two workers
    are cut into a chunk of three and a chunk of one, not into chunks of
    [ceil(4 / 2) = 2]. *)
Lemma word_chunks_not_ceil :
  word_chunks ["a"; "b"; "c"; "d"] (Z.to_nat (chunk_size 4 2))
  = [["a"; "b"; "c"]; ["d"]]
  ∧ ceil_div 4 2 = 2
  ∧ ¬ chunks_of_size (ceil_div 4 2)
        (word_chunks ["a"; "b"; "c"; "d"] (Z.to_nat (chunk_size 4 2))).
Proof.
  split; [reflexivity|]. split; [reflexivity|].
  intros H. specialize (H 0%nat ["a"; "b"; "c"] eq_refl).
  vm_compute in H. discriminate.
Qed.

Section PoolClaims.

Variable detect : string → result string.

(** C2. For every word list and every worker count, the parallel stage
    (cut into contiguous chunks, filter each chunk with [filter_word_list]
    on some worker, concatenate the results in chunk order) returns the
    very list [filter_word_list] returns on the whole word list; so the
    result is the same for every pool size and every placement of the
    chunks on the workers. *)
Theorem parallel_filter_is_sequential_filter
    (sched : list nat) (words : list string) (excluded : gset string)
    (targets : option (list string)) (w : Z) (st : lang_state)
    (Hw : 1 ≤ w) (Hst : coherent detect st) :
  ∃ out,
    (filter_word_list detect (words, excluded, targets) st).1 = Ok out
    ∧ parallel_filter detect sched words excluded targets w = Ok out
    ∧ parallel_filter detect sched words excluded targets 1 = Ok out
    ∧ (∀ sched' w', 1 ≤ w' →
         parallel_filter detect sched' words excluded targets w' = Ok out).
Proof.
  destruct (FiltersFacts.filter_word_list_run detect words excluded targets
              st Hst) as (st' & Hrun & _).
  exists (List.filter (keep detect excluded targets) words).
  split_and!.
  - by rewrite Hrun.
  - by apply ProcessorFacts.parallel_filter_run.
  - by apply ProcessorFacts.parallel_filter_run.
  - intros sched' w' Hw'. by apply ProcessorFacts.parallel_filter_run.
Qed.

End PoolClaims.

Lemma parallel_filter_is_sequential_filter_witness :
  1 ≤ 3 ∧ coherent Scenario.detect fresh_state
  ∧ ∃ out,
      (filter_word_list Scenario.detect
         (["hello"; "a"; "bonjour"; "the"; "world"], {["the"]}, Some ["en"])
         fresh_state).1 = Ok out
      ∧ parallel_filter Scenario.detect [1; 0; 2]%nat
          ["hello"; "a"; "bonjour"; "the"; "world"] {["the"]} (Some ["en"]) 3
        = Ok out.
Proof.
  split; [lia|]. split; [constructor|].
  destruct (parallel_filter_is_sequential_filter Scenario.detect [1; 0; 2]%nat
              ["hello"; "a"; "bonjour"; "the"; "world"] {["the"]}
              (Some ["en"]) 3 fresh_state ltac:(lia) ltac:(constructor))
    as (out & Hseq & Hpar & _).
  exists out. split; [exact Hseq|exact Hpar].
Defined.

(** ** The claims about reading *)

Section ReaderClaims.

Variable basename : string → string.
Variable PdfReader : string → result (list (result string)).

(** C9. [read_pdfs_in_parallel] returns the space-joined texts of exactly
    the files whose extraction succeeded, in the order the threads
    appended them: the text of a file is the texts of its pages joined by
    spaces (a page that fails or is empty counting as one space), a file
    that cannot be opened adds no text and does not stop the others, and
    every file, read or not, advances the progress counter and ends with
    its own outcome. With no path it returns the empty string at once: no
    thread is started and nothing is logged. The pool has at least one
    thread. *)
Theorem read_pdfs_joins_successful_texts
    (sched : list nat) (paths : list string) (max_workers_io : Z)
    (Hpool : 1 ≤ max_workers_io) :
  (∃ order st,
     read_pdfs_in_parallel basename PdfReader sched paths max_workers_io
     = (Ok (String.concat " " order), st)
     ∧ order ≡ₚ readable_texts PdfReader paths
     ∧ texts st.2 = order
     ∧ counter st.2 = Z.of_nat (length paths)
     ∧ st.1 = (λ p, Done p (file_outcome PdfReader p)) <$> paths)
  ∧ (∀ any_workers,
       read_pdfs_in_parallel basename PdfReader sched [] any_workers
       = (Ok "", ([], Shared [] 0 []))).
Proof.
  split; [|done].
  by apply ReaderFacts.read_pdfs_result.
Qed.

End ReaderClaims.

Lemma read_pdfs_joins_successful_texts_witness :
  1 ≤ 8
  ∧ ∃ st,
      read_pdfs_in_parallel Scenario.basename Scenario.PdfReader
        [1; 0; 0; 1]%nat ["/data/corpus/a.pdf"; "/data/corpus/b.PDF"] 8
      = (Ok "Hello world   hello Bonjour", st)
      ∧ texts st.2 = ["Hello world   hello Bonjour"]
      ∧ counter st.2 = 2
      ∧ st.1 = [Done "/data/corpus/a.pdf" (Ok "Hello world   hello Bonjour");
                Done "/data/corpus/b.PDF" (Raise PdfReadError)].
Proof.
  split; [lia|].
  destruct (read_pdfs_joins_successful_texts Scenario.basename
              Scenario.PdfReader [1; 0; 0; 1]%nat
              ["/data/corpus/a.pdf"; "/data/corpus/b.PDF"] 8 ltac:(lia))
    as [(order & st & Hrun & Hperm & Htexts & Hcnt & Hthreads) _].
  assert (readable_texts Scenario.PdfReader
            ["/data/corpus/a.pdf"; "/data/corpus/b.PDF"]
          = ["Hello world   hello Bonjour"]) as Hreadable by reflexivity.
  rewrite Hreadable in Hperm. apply Permutation_singleton_r in Hperm.
  subst order. exists st. split; [exact Hrun|].
  split; [exact Htexts|]. split; [exact Hcnt|exact Hthreads].
Defined.

(** ** The claims about the pipeline *)

Section PipelineClaims.

Variable isfile isdir : string → bool.
Variable listdir : string → result (list string).
Variable abspath basename lower : string → string.
Variable path_join : string → string → string.
Variable PdfReader : string → result (list (result string)).
Variable detect : string → result string.
Variable findall_words : string → list string.
Variable cpu_count : option Z.

Abbreviation find := (find_pdf_files isfile isdir listdir abspath lower path_join).
Abbreviation calc :=
  (calculate_word_frequency_and_filter isfile isdir listdir abspath basename
     lower path_join PdfReader detect findall_words cpu_count).
Abbreviation phase :=
  (filter_phase isfile isdir listdir abspath basename lower path_join
     PdfReader detect findall_words cpu_count).

(** C1, as the code has it. Whenever the pipeline completes,
    [total_valid_word_count] is the number of words the parallel filter
    phase produced (0 when the run ends before that phase), whatever
    frequency filter is applied afterwards; it equals the sum of the values
    of the returned frequency map whenever no frequency filter is active,
    and is never below that sum when one is. *)
Theorem total_count_is_prefilter_count
    (io_sched cpu_sched : list nat) (input_path : string)
    (excluded_words : list string) (targets : option (list string))
    (min_freq max_freq : option Z) (exact_freqs : option (list Z))
    (max_workers_io : Z) (max_workers_cpu : option Z)
    (n : Z) (m : gmap string Z)
    (Hrun : calc io_sched cpu_sched input_path excluded_words targets
              min_freq max_freq exact_freqs max_workers_io max_workers_cpu
            = Ok (n, m)) :
  ∃ survivors,
    phase io_sched cpu_sched input_path excluded_words targets
      max_workers_io max_workers_cpu = Ok survivors
    ∧ n = Z.of_nat (length (default [] survivors))
    ∧ m = frequency_filter (count_frequencies (default [] survivors))
            min_freq max_freq exact_freqs
    ∧ (∀ min' max' exact',
         calc io_sched cpu_sched input_path excluded_words targets
           min' max' exact' max_workers_io max_workers_cpu
         = Ok (n, frequency_filter (count_frequencies (default [] survivors))
                    min' max' exact'))
    ∧ (no_frequency_filter min_freq max_freq exact_freqs → freq_sum m = n)
    ∧ freq_sum m ≤ n.
Proof.
  pose proof (ProcessorFacts.calculate_shape isfile isdir listdir abspath
                basename lower path_join PdfReader detect findall_words
                cpu_count io_sched cpu_sched input_path excluded_words targets)
    as Hshape.
  rewrite Hshape in Hrun.
  destruct (phase io_sched cpu_sched input_path excluded_words targets
              max_workers_io max_workers_cpu) as [survivors|e] eqn:Hphase;
    [|done].
  exists survivors. split; [done|].
  assert (n = Z.of_nat (length (default [] survivors))
          ∧ m = frequency_filter (count_frequencies (default [] survivors))
                  min_freq max_freq exact_freqs) as [-> ->].
  { destruct survivors as [fw|]; injection Hrun as <- <-; [done|].
    split; [done|]. simpl. unfold frequency_filter.
    destruct (truthy_list exact_freqs); [done|].
    by destruct (_ || _). }
  split_and!; [done..| | |].
  - intros min' max' exact'. rewrite Hshape, Hphase.
    destruct survivors as [fw|]; [done|]. simpl. do 2 f_equal.
    unfold frequency_filter. destruct (truthy_list exact'); [done|].
    by destruct (_ || _).
  - intros Hnone. rewrite ProcessorFacts.frequency_filter_none by done.
    apply ProcessorFacts.count_frequencies_sum.
  - rewrite <-(ProcessorFacts.count_frequencies_sum (default [] survivors)).
    apply ProcessorFacts.frequency_filter_sum_le,
      ProcessorFacts.count_frequencies_positive.
Qed.

(** C7. When the input path is neither a .pdf file nor a directory, when
    discovery finds no PDF file, and when the extracted corpus is empty or
    whitespace only, the pipeline returns [(0, {})] and does not raise; in
    the first case because [find_pdf_files] raises [ValueError], which is
    caught. *)
Theorem empty_result_on_early_exit
    (io_sched cpu_sched : list nat) (input_path : string)
    (excluded_words : list string) (targets : option (list string))
    (min_freq max_freq : option Z) (exact_freqs : option (list Z))
    (max_workers_io : Z) (max_workers_cpu : option Z)
    (Hearly :
       (isfile input_path && endswith (lower input_path) ".pdf" = false
        ∧ isdir input_path = false)
       ∨ find input_path = Ok []
       ∨ (∃ paths text,
            find input_path = Ok paths
            ∧ (read_pdfs_in_parallel basename PdfReader io_sched paths
                 max_workers_io).1 = Ok text
            ∧ whitespace_only text = true)) :
  calc io_sched cpu_sched input_path excluded_words targets
    min_freq max_freq exact_freqs max_workers_io max_workers_cpu
  = Ok (0, ∅)
  ∧ (isfile input_path && endswith (lower input_path) ".pdf" = false →
     isdir input_path = false →
     find input_path = Raise ValueError).
Proof.
  split.
  - apply ProcessorFacts.calculate_early.
    destruct Hearly as [[Hf Hd]|[Hnone|Hblank]]; [left|right; by left|
                                                    right; by right].
    by apply ProcessorFacts.find_pdf_files_invalid.
  - apply ProcessorFacts.find_pdf_files_invalid.
Qed.

(** C10. With a non-empty target-language list every word
    [filter_word_list] returns, and so every word of the final frequency
    map, has at least 3 characters. *)
Theorem language_filter_needs_three_characters
    (targets : option (list string))
    (Htargets : truthy_list targets = true) :
  (∀ words excluded st out,
     coherent detect st →
     (filter_word_list detect (words, excluded, targets) st).1 = Ok out →
     ∀ w, w ∈ out → (3 ≤ String.length w)%nat)
  ∧ (∀ io_sched cpu_sched input_path excluded_words min_freq max_freq
       exact_freqs max_workers_io max_workers_cpu n m,
       calc io_sched cpu_sched input_path excluded_words targets
         min_freq max_freq exact_freqs max_workers_io max_workers_cpu
       = Ok (n, m) →
       ∀ w c, m !! w = Some c → (3 ≤ String.length w)%nat).
Proof.
  split.
  - intros words excluded st out Hst Hrun.
    destruct (FiltersFacts.filter_word_list_run detect words excluded targets
                st Hst) as (st' & Hrun' & _).
    rewrite Hrun' in Hrun. injection Hrun as <-.
    intros w Hw. apply list_elem_of_In, List.filter_In in Hw as [_ Hw].
    by eapply FiltersFacts.keep_lang_length.
  - intros io cpu input_path excluded_words min_freq max_freq exact_freqs
      mw_io mw_cpu n m Hrun w c Hw.
    rewrite ProcessorFacts.calculate_shape in Hrun.
    destruct (phase io cpu input_path excluded_words targets mw_io mw_cpu)
      as [[fw|]|e] eqn:Hphase; [| |done].
    + injection Hrun as <- <-.
      apply ProcessorFacts.filter_phase_words in Hphase
        as (paths & text & _ & _ & ->).
      eapply lookup_weaken in Hw;
        [|apply ProcessorFacts.frequency_filter_subseteq].
      apply ProcessorFacts.count_frequencies_keys in Hw.
      apply list_elem_of_In, List.filter_In in Hw as [_ Hw].
      by eapply FiltersFacts.keep_lang_length.
    + injection Hrun as <- <-. by rewrite lookup_empty in Hw.
Qed.

End PipelineClaims.

(** ** The pipeline on the concrete environment *)

Lemma total_count_is_prefilter_count_witness :
  Scenario.analyze [] [1; 0]%nat "corpus" ["Bonjour"] None (Some 2) None None
    8 None = Ok (3, {["hello" := 2]})
  ∧ freq_sum {["hello" := 2]} ≤ 3.
Proof.
  assert (Scenario.analyze [] [1; 0]%nat "corpus" ["Bonjour"] None (Some 2)
            None None 8 None = Ok (3, {["hello" := 2]})) as Hrun
    by (vm_compute; reflexivity).
  split; [exact Hrun|].
  destruct (total_count_is_prefilter_count _ _ _ _ _ _ _ _ _ _ _ _ _ _ _ _ _
              _ _ _ _ _ _ Hrun) as (survivors & _ & _ & _ & _ & _ & Hle).
  exact Hle.
Defined.

(** C1, as the specification words it, fails: a range filter with lower
    bound 1 is active, keeps every word, and the total is the sum of the
    returned map. *)
Lemma total_equals_sum_under_active_filter :
  Scenario.analyze [] [] "corpus" [] None (Some 1) None None 8 None
  = Ok (4, {["hello" := 2; "world" := 1; "bonjour" := 1]})
  ∧ freq_sum {["hello" := 2; "world" := 1; "bonjour" := 1]} = 4
  ∧ ¬ no_frequency_filter (Some 1) None None
  ∧ ¬ (4 = freq_sum {["hello" := 2; "world" := 1; "bonjour" := 1]}
       ↔ no_frequency_filter (Some 1) None None).
Proof.
  assert (¬ no_frequency_filter (Some 1) None None) as Hactive
    by (intros (_ & [=] & _)).
  assert (freq_sum {["hello" := 2; "world" := 1; "bonjour" := 1]} = 4)
    as Hsum by (vm_compute; reflexivity).
  split_and!; [vm_compute; reflexivity|done|done|].
  intros [Hiff _]. apply Hactive, Hiff. by rewrite Hsum.
Qed.

Lemma empty_result_on_early_exit_witness :
  Scenario.analyze [] [] "notes.txt" [] None None None None 8 None = Ok (0, ∅)
  ∧ Scenario.analyze [] [] "empty_dir" [] None None None None 8 None
    = Ok (0, ∅)
  ∧ Scenario.analyze [] [] "blank.pdf" [] None None None None 8 None
    = Ok (0, ∅).
Proof.
  split_and!.
  - apply empty_result_on_early_exit. left. split; reflexivity.
  - apply empty_result_on_early_exit. right. left. reflexivity.
  - apply empty_result_on_early_exit. right. right.
    exists ["/data/blank.pdf"], "   ". split_and!; reflexivity.
Defined.

Lemma language_filter_needs_three_characters_witness :
  truthy_list (Some ["en"]) = true
  ∧ ∀ n m,
      Scenario.analyze [] [] "corpus" [] (Some ["en"]) None None None 8 None
      = Ok (n, m) →
      ∀ w c, m !! w = Some c → (3 ≤ String.length w)%nat.
Proof.
  split; [reflexivity|]. intros n m.
  apply (language_filter_needs_three_characters Scenario.isfile
           Scenario.isdir Scenario.listdir Scenario.abspath Scenario.basename
           Scenario.lower Scenario.path_join Scenario.PdfReader
           Scenario.detect Scenario.findall_words Scenario.cpu_count
           (Some ["en"]) eq_refl).
Defined.

(** ** Further properties of analyzer/filters.py *)

Module TallyFacts.
Import Filters Spec Notions.

Lemma filter_eq_absent (w : string) words :
  w ∉ words → filter (λ v : string, v = w) words = [].
Proof.
  intros Hnin. destruct (filter _ words) as [|v l] eqn:Hf; [done|].
  assert (v ∈ filter (λ v : string, v = w) words) as Hv
    by (rewrite Hf; left).
  apply list_elem_of_filter in Hv as [-> Hv]. done.
Qed.

Lemma counting_lookup words (m : gmap string Z) w :
  foldl counter_add m words !! w
  = if decide (w ∈ words)
    then Some (default 0 (m !! w) + occurrences w words)
    else m !! w.
Proof.
  unfold occurrences. revert m. induction words as [|v words IH]; intros m; [done|].
  cbn [foldl]. rewrite IH. unfold counter_add.
  destruct (decide (v = w)) as [->|Hne].
  - rewrite lookup_insert_eq. cbn [default].
    rewrite filter_cons_True by done. cbn [length].
    rewrite (decide_True (P := w ∈ w :: words)) by left.
    destruct (decide (w ∈ words)) as [Hin|Hnin].
    + apply f_equal. unfold id. lia.
    + rewrite filter_eq_absent by done.
      cbn [length]. apply f_equal. unfold id. lia.
  - rewrite lookup_insert_ne by done.
    rewrite filter_cons_False by done.
    destruct (decide (w ∈ words)) as [Hin|Hnin].
    + rewrite (decide_True (P := w ∈ v :: words)) by (by right). done.
    + rewrite (decide_False (P := w ∈ v :: words)); [done|].
      rewrite elem_of_cons. intros [?|?]; congruence.
Qed.

Lemma count_frequencies_lookup words w :
  count_frequencies words !! w
  = if decide (w ∈ words) then Some (occurrences w words) else None.
Proof.
  unfold count_frequencies. rewrite counting_lookup, lookup_empty.
  unfold occurrences.
  case_decide; [|done]. apply f_equal. cbn [default]. lia.
Qed.

Lemma occurrences_positive (w : string) words :
  w ∈ words → 1 ≤ occurrences w words.
Proof.
  intros Hin. unfold occurrences.
  assert (w ∈ filter (λ v : string, v = w) words) as Hf
    by (by apply list_elem_of_filter).
  destruct (filter (λ v : string, v = w) words); [inversion Hf|].
  cbn [length]. lia.
Qed.

Lemma occurrences_le_length (w : string) words :
  occurrences w words ≤ Z.of_nat (length words).
Proof.
  unfold occurrences.
  pose proof (length_filter (λ v : string, v = w) words). lia.
Qed.

Lemma occurrences_Permutation (w : string) words words' :
  words ≡ₚ words' → occurrences w words = occurrences w words'.
Proof. intros Hp. unfold occurrences. by rewrite Hp. Qed.

Lemma count_frequencies_Permutation words words' :
  words ≡ₚ words' → count_frequencies words = count_frequencies words'.
Proof.
  intros Hp. apply map_eq. intros w.
  rewrite !count_frequencies_lookup, (occurrences_Permutation w _ _ Hp).
  destruct (decide (w ∈ words)) as [Hin|Hnin].
  - rewrite Hp in Hin. by rewrite decide_True.
  - rewrite Hp in Hnin. by rewrite decide_False.
Qed.

(** *** The two frequency filters *)

Lemma range_as_exact (m : gmap string Z) a b :
  filter_by_frequency_range m a (Int b)
  = filter_by_exact_frequency m (seqZ a (b - a + 1)).
Proof.
  unfold filter_by_frequency_range, filter_by_exact_frequency.
  apply map_filter_ext. intros w c _. cbn [snd le_bound].
  rewrite elem_of_list_to_set, elem_of_seqZ. lia.
Qed.

Lemma le_bound_min c b d :
  le_bound c (bound_min b d) ↔ le_bound c b ∧ le_bound c d.
Proof. destruct b, d; simpl; intuition lia. Qed.

Lemma range_compose (m : gmap string Z) a b c d :
  filter_by_frequency_range (filter_by_frequency_range m a b) c d
  = filter_by_frequency_range m (Z.max a c) (bound_min b d).
Proof.
  unfold filter_by_frequency_range. rewrite map_filter_filter.
  apply map_filter_ext. intros w k _. cbn [snd].
  rewrite le_bound_min. intuition lia.
Qed.

Lemma range_empty (m : gmap string Z) a b :
  b < a → filter_by_frequency_range m a (Int b) = ∅.
Proof.
  intros Hlt. unfold filter_by_frequency_range.
  apply map_empty_filter. intros w c _. cbn [snd le_bound]. lia.
Qed.

Lemma range_keeps_tally words a :
  a ≤ 1 →
  filter_by_frequency_range (count_frequencies words) a Inf
  = count_frequencies words.
Proof.
  intros Ha. unfold filter_by_frequency_range.
  apply map_filter_id. intros w c Hc. cbn [snd le_bound].
  rewrite count_frequencies_lookup in Hc. case_decide as Hin; [|done].
  injection Hc as <-. pose proof (occurrences_positive w words Hin).
  split; [lia|done].
Qed.

End TallyFacts.

(** *** The language cache *)

Module CacheFacts.
Import Filters Spec Notions.

Lemma maxsize_pos : (1 ≤ maxsize)%nat.
Proof. unfold maxsize. lia. Qed.

Lemma take_cons_pos {A} (n : nat) (x : A) l :
  (1 ≤ n)%nat → take n (x :: l) = x :: take (n - 1) l.
Proof. intros Hn. destruct n; [lia|]. cbn [take]. do 2 f_equal. lia. Qed.

Lemma cache_find_head w r c : cache_find w ((w, r) :: c) = Some r.
Proof. cbn [cache_find]. by rewrite decide_True. Qed.

Lemma cache_find_None w c : cache_find w c = None → w ∉ c.*1.
Proof.
  induction c as [|[k r] c IH]; cbn [cache_find fmap list_fmap fst].
  - intros _. apply not_elem_of_nil.
  - case_decide as Hk; [done|]. intros H. apply not_elem_of_cons. auto.
Qed.

(** Moving an entry to the front keeps the set of cached words. *)
Lemma move_to_front w r (c : list (string * option string)) :
  NoDup c.*1 → (w, r) ∈ c →
  w :: (cache_remove w c).*1 ≡ₚ c.*1.
Proof.
  unfold cache_remove.
  induction c as [|[k v] c IH]; intros Hnd Hin; [by apply elem_of_nil in Hin|].
  rewrite fmap_cons in Hnd. apply NoDup_cons in Hnd as [Hk Hnd].
  destruct (decide (k = w)) as [->|Hne].
  - rewrite filter_cons_False by (cbn; tauto).
    assert (filter (λ kr : string * option string, kr.1 ≠ w) c = c) as ->; [|done].
    clear IH Hin Hnd. induction c as [|[k' v'] c IH]; [done|].
    cbn [fmap list_fmap fst] in Hk. apply not_elem_of_cons in Hk as [Hk' Hk].
    rewrite filter_cons_True by (cbn; congruence). f_equal. by apply IH.
  - rewrite filter_cons_True by done. rewrite !fmap_cons. cbn [fst].
    apply elem_of_cons in Hin as [[= ? ?]|Hin]; [congruence|].
    rewrite Permutation_swap. apply Permutation_skip. by apply IH.
Qed.

Section WithDetector.

Variable detect : string → result string.

(** Looking a word up puts it at the front of the cache. *)
Lemma detect_cached_front w st :
  ∃ r c, (_detect_language_cached detect w st).1 = Ok r
         ∧ cache (_detect_language_cached detect w st).2 = (w, r) :: c.
Proof.
  unfold _detect_language_cached, lru_cache.
  destruct (cache_find w (cache st)) as [r|]; [by eexists _, _|].
  rewrite FiltersFacts.detect_body_run. eexists _, _. split; [done|].
  cbn [snd cache]. by rewrite take_cons_pos by apply maxsize_pos.
Qed.

Lemma detect_cached_hit w r c calls :
  _detect_language_cached detect w (LangState ((w, r) :: c) calls)
  = (Ok r, LangState ((w, r) :: cache_remove w ((w, r) :: c)) calls).
Proof.
  unfold _detect_language_cached, lru_cache. cbn [cache detector_calls].
  by rewrite cache_find_head.
Qed.

Lemma tracked_calls_bound excluded input st :
  tracked excluded input st →
  (length (detector_calls st) ≤ length (remove_dups input))%nat.
Proof.
  intros (_ & Hnd & Hall). apply submseteq_length, NoDup_submseteq; [done|].
  intros w Hw. apply elem_of_remove_dups.
  rewrite Forall_forall in Hall. by apply Hall.
Qed.

Lemma detect_cached_tracked excluded input w st :
  (length (remove_dups input) ≤ maxsize)%nat →
  w ∈ input → w ∉ excluded → (3 ≤ String.length w)%nat →
  tracked excluded input st →
  tracked excluded input (_detect_language_cached detect w st).2.
Proof.
  intros Hsize Hin Hex Hlen Htr.
  pose proof Htr as (Hperm & Hnd & Hall).
  unfold _detect_language_cached, lru_cache.
  destruct (cache_find w (cache st)) as [r|] eqn:Hfind.
  - apply FiltersFacts.cache_find_elem in Hfind.
    split_and!; cbn [snd detector_calls]; [|done..].
    unfold cached_words in *. cbn [cache fmap list_fmap fst].
    rewrite <-Hperm. apply (move_to_front w r); [|done].
    by rewrite Hperm.
  - rewrite FiltersFacts.detect_body_run. cbn [snd cache detector_calls].
    apply cache_find_None in Hfind.
    assert (w ∉ detector_calls st) as Hnew by (by rewrite <-Hperm).
    assert (tracked excluded input
              (LangState ((w, detection detect w) :: cache st)
                 (detector_calls st ++ [w]))) as Htr'.
    { split_and!; cbn [detector_calls].
      - unfold cached_words in *. cbn [cache]. rewrite fmap_cons. cbn [fst].
        rewrite Hperm. apply Permutation_cons_append.
      - apply NoDup_app. split_and!; [done| |apply NoDup_singleton].
        intros v Hv Hv'. apply list_elem_of_singleton in Hv' as ->. done.
      - apply Forall_app. split; [done|]. by repeat constructor. }
    pose proof (tracked_calls_bound _ _ _ Htr') as Hbound.
    cbn [detector_calls] in Hbound.
    destruct Htr' as (Hperm' & Hnd' & Hall').
    unfold cached_words in Hperm'. cbn [cache detector_calls] in Hperm'.
    rewrite take_ge; [by split_and!|].
    apply Permutation_length in Hperm'.
    rewrite length_fmap in Hperm'. lia.
Qed.

Lemma filter_loop_tracked excluded targets input words acc st :
  (length (remove_dups input) ≤ maxsize)%nat →
  (∀ w, w ∈ words → w ∈ input) →
  tracked excluded input st →
  tracked excluded input (filter_loop detect words excluded targets acc st).2.
Proof.
  intros Hsize. revert acc st.
  induction words as [|w words IH]; intros acc st Hsub Htr; [done|].
  assert (∀ v, v ∈ words → v ∈ input) as Hsub'
    by (intros v Hv; apply Hsub; by right).
  cbn [filter_loop].
  destruct (bool_decide (w ∈ excluded)) eqn:Hex; cbn [orb]; [by apply IH|].
  apply bool_decide_eq_false in Hex.
  destruct (Z.ltb_spec (Z.of_nat (String.length w)) 2) as [Hlt|Hge];
    [by apply IH|].
  destruct targets as [[|t ts]|]; cbn [truthy_list]; try (by apply IH).
  unfold filter_word_by_language.
  destruct (Z.ltb_spec (Z.of_nat (String.length w)) 3) as [Hlt3|Hge3].
  { unfold mbind, M_bind, bind, mret, M_ret, ret. cbn [negb]. by apply IH. }
  assert (tracked excluded input (_detect_language_cached detect w st).2)
    as Htr'.
  { apply detect_cached_tracked; try done; [apply Hsub; left|lia]. }
  unfold mbind, M_bind, bind, mret, M_ret, ret.
  destruct (_detect_language_cached detect w st) as [[r|e] st1];
    cbn [snd] in Htr'; [|exact Htr'].
  destruct r as [l|].
  - destruct (bool_decide (l ∈ t :: ts)); cbn [negb]; by apply IH.
  - cbn [negb]. by apply IH.
Qed.

(** Without a language filter the loop does not touch the worker state. *)
Lemma filter_loop_no_language words excluded targets acc st :
  truthy_list targets = false →
  filter_loop detect words excluded targets acc st
  = (Ok (acc ++ List.filter (keep detect excluded targets) words), st).
Proof.
  intros Hno. revert acc.
  induction words as [|w words IH]; intros acc.
  - cbn. by rewrite app_nil_r.
  - cbn [filter_loop List.filter]. rewrite Hno.
    assert (keep detect excluded targets w
            = negb (bool_decide (w ∈ excluded)
                    || (Z.of_nat (String.length w) <? 2))) as ->.
    { unfold keep. destruct (bool_decide (w ∈ excluded)); [done|].
      cbn [negb andb orb].
      assert ((2 <=? String.length w)%nat
              = negb (Z.of_nat (String.length w) <? 2)) as ->.
      { destruct (Z.ltb_spec (Z.of_nat (String.length w)) 2);
          [apply Nat.leb_gt|apply Nat.leb_le]; lia. }
      destruct targets as [[|t ts]|]; try done; by rewrite andb_true_r. }
    destruct (_ || _); cbn [negb]; [apply IH|].
    rewrite IH. by rewrite <-(assoc_L (++)).
Qed.

Lemma filter_keep_idempotent excluded targets words :
  List.filter (keep detect excluded targets)
    (List.filter (keep detect excluded targets) words)
  = List.filter (keep detect excluded targets) words.
Proof.
  induction words as [|w words IH]; [done|]. cbn [List.filter].
  destruct (keep detect excluded targets w) eqn:Hk; [|done].
  cbn [List.filter]. by rewrite Hk, IH.
Qed.

End WithDetector.

End CacheFacts.

(** ** Further theorems: counting and frequency filters *)

Import Notions.

(** X1. [count_frequencies] maps every word of the list to the number of
    its occurrences and holds no other key; every stored count lies
    between 1 and the length of the list. *)
Theorem count_frequencies_counts_occurrences
    (words : list string) (w : string) :
  count_frequencies words !! w
  = (if decide (w ∈ words) then Some (occurrences w words) else None)
  ∧ (∀ c, count_frequencies words !! w = Some c →
          w ∈ words ∧ 1 ≤ c ≤ Z.of_nat (length words)).
Proof.
  split; [apply TallyFacts.count_frequencies_lookup|].
  intros c. rewrite TallyFacts.count_frequencies_lookup.
  case_decide as Hin; [|done]. intros [= <-]. split; [done|].
  pose proof (TallyFacts.occurrences_positive w words Hin).
  pose proof (TallyFacts.occurrences_le_length w words). lia.
Qed.

(** X2. The tally does not depend on the order of the words: two lists
    that are permutations of each other give the same frequency map. *)
Theorem count_frequencies_order_independent
    (words words' : list string) (Hperm : words ≡ₚ words') :
  count_frequencies words = count_frequencies words'.
Proof. by apply TallyFacts.count_frequencies_Permutation. Qed.

Lemma count_frequencies_order_independent_witness :
  ["b"; "a"; "b"] ≡ₚ ["a"; "b"; "b"]
  ∧ count_frequencies ["b"; "a"; "b"] = count_frequencies ["a"; "b"; "b"].
Proof.
  assert (["b"; "a"; "b"] ≡ₚ ["a"; "b"; "b"]) as Hperm
    by apply Permutation_swap.
  split; [exact Hperm|].
  exact (count_frequencies_order_independent _ _ Hperm).
Defined.

(** X3. A range filter with integer bounds is the exact filter for the
    list of all integers from [min] to [max]. *)
Theorem range_filter_is_exact_filter
    (m : gmap string Z) (min max : Z) :
  filter_by_frequency_range m min (Int max)
  = filter_by_exact_frequency m (seqZ min (max - min + 1)).
Proof. apply TallyFacts.range_as_exact. Qed.

(** X4. Two range filters in a row are one range filter with the larger
    lower and the smaller upper bound; in particular a range filter
    applied twice changes nothing more. *)
Theorem range_filters_compose
    (m : gmap string Z) (min1 min2 : Z) (max1 max2 : bound) :
  filter_by_frequency_range (filter_by_frequency_range m min1 max1)
    min2 max2
  = filter_by_frequency_range m (Z.max min1 min2) (bound_min max1 max2)
  ∧ filter_by_frequency_range (filter_by_frequency_range m min1 max1)
      min1 max1
    = filter_by_frequency_range m min1 max1.
Proof.
  split; [apply TallyFacts.range_compose|].
  rewrite TallyFacts.range_compose, Z.max_id.
  by destruct max1; cbn [bound_min]; rewrite ?Z.min_id.
Qed.

(** X5. A range whose upper bound is below its lower bound keeps no entry:
    the result is the empty map, not an error. *)
Theorem empty_range_keeps_nothing
    (m : gmap string Z) (min max : Z) (Hempty : max < min) :
  filter_by_frequency_range m min (Int max) = ∅.
Proof. by apply TallyFacts.range_empty. Qed.

Lemma empty_range_keeps_nothing_witness :
  5 < 10 ∧ filter_by_frequency_range Scenario.sample_counts 10 (Int 5) = ∅.
Proof.
  split; [lia|].
  apply (empty_range_keeps_nothing Scenario.sample_counts 10 5). lia.
Defined.

(** X6. Every count of a tally is at least 1, so on the output of
    [count_frequencies] a range filter with lower bound at most 1 and no
    upper bound keeps every entry. *)
Theorem open_range_keeps_whole_tally
    (words : list string) (min : Z) (Hmin : min ≤ 1) :
  filter_by_frequency_range (count_frequencies words) min Inf
  = count_frequencies words.
Proof. by apply TallyFacts.range_keeps_tally. Qed.

Lemma open_range_keeps_whole_tally_witness :
  1 ≤ 1
  ∧ filter_by_frequency_range (count_frequencies ["a"; "b"; "a"]) 1 Inf
    = count_frequencies ["a"; "b"; "a"].
Proof.
  split; [lia|].
  apply (open_range_keeps_whole_tally ["a"; "b"; "a"] 1). lia.
Defined.

(** ** Further theorems: the language cache *)

Section CacheTheorems.

Variable detect : string → result string.

(** X7. Memoization: asking for the language of the same word twice in a
    row gives the same answer, and the second request is served from the
    cache without calling the detector. *)
Theorem repeated_detection_is_cached (w : string) (st : lang_state) :
  ∃ r st1 st2,
    _detect_language_cached detect w st = (Ok r, st1)
    ∧ _detect_language_cached detect w st1 = (Ok r, st2)
    ∧ detector_calls st2 = detector_calls st1.
Proof.
  destruct (CacheFacts.detect_cached_front detect w st) as (r & c & Hr & Hc).
  destruct (_detect_language_cached detect w st) as [res [c1 calls1]].
  cbn [fst snd cache] in Hr, Hc. subst res c1.
  eexists r, _, _. split; [done|].
  by rewrite CacheFacts.detect_cached_hit.
Qed.

(** X8. A fresh worker filtering a chunk with at most [maxsize] distinct
    words calls the detector at most once per word, and only on words of
    the chunk that are not excluded and have at least 3 characters; the
    cache then holds exactly the words the detector was called on. *)
Theorem detector_called_once_per_word
    (words : list string) (excluded : gset string)
    (targets : option (list string))
    (Hsize : (length (remove_dups words) ≤ maxsize)%nat) :
  let st' :=
    (filter_word_list detect (words, excluded, targets) fresh_state).2 in
  NoDup (detector_calls st')
  ∧ (∀ w, w ∈ detector_calls st' →
          w ∈ words ∧ (w ∉ excluded) ∧ (3 ≤ String.length w)%nat)
  ∧ cached_words st' ≡ₚ detector_calls st'.
Proof.
  intros st'.
  assert (tracked excluded words st') as (Hperm & Hnd & Hall).
  { apply CacheFacts.filter_loop_tracked; [done..|].
    by split_and!; [|constructor|constructor]. }
  split_and!; [done| |done].
  rewrite Forall_forall in Hall. exact Hall.
Qed.

(** X9. Without a language filter (no target list, or an empty one)
    [filter_word_list] never looks at the language cache: the worker state
    is returned as it was, so the detector is not called. *)
Theorem no_language_filter_no_detection
    (words : list string) (excluded : gset string)
    (targets : option (list string)) (st : lang_state)
    (Hno : truthy_list targets = false) :
  filter_word_list detect (words, excluded, targets) st
  = (Ok (List.filter (keep detect excluded targets) words), st).
Proof. by apply (CacheFacts.filter_loop_no_language detect _ _ _ []). Qed.

(** X10. Filtering is idempotent: [filter_word_list] run again on its own
    output, with the same exclusion set and target languages, returns that
    output unchanged. *)
Theorem filter_word_list_idempotent
    (words : list string) (excluded : gset string)
    (targets : option (list string)) (st st1 : lang_state)
    (out : list string)
    (Hst : coherent detect st)
    (Hrun : filter_word_list detect (words, excluded, targets) st
            = (Ok out, st1)) :
  (filter_word_list detect (out, excluded, targets) st1).1 = Ok out.
Proof.
  destruct (FiltersFacts.filter_word_list_run detect words excluded targets
              st Hst) as (st' & Hrun' & Hst').
  rewrite Hrun' in Hrun. injection Hrun as <- <-.
  destruct (FiltersFacts.filter_word_list_run detect
              (List.filter (keep detect excluded targets) words)
              excluded targets st' Hst') as (st'' & -> & _).
  cbn [fst]. by rewrite CacheFacts.filter_keep_idempotent.
Qed.

End CacheTheorems.

Lemma detector_called_once_per_word_witness :
  (length (remove_dups ["hello"; "ab"; "hello"; "the"; "world"]) ≤ maxsize)%nat
  ∧ detector_calls
      (filter_word_list Scenario.detect
         (["hello"; "ab"; "hello"; "the"; "world"], {["the"]}, Some ["en"])
         fresh_state).2
    = ["hello"; "world"]
  ∧ NoDup (detector_calls
             (filter_word_list Scenario.detect
                (["hello"; "ab"; "hello"; "the"; "world"], {["the"]},
                 Some ["en"]) fresh_state).2).
Proof.
  assert (length (remove_dups ["hello"; "ab"; "hello"; "the"; "world"])
          ≤ maxsize)%nat as Hsize.
  { assert (length (remove_dups ["hello"; "ab"; "hello"; "the"; "world"])
            = 4%nat) as -> by (vm_compute; reflexivity).
    unfold maxsize. lia. }
  split; [exact Hsize|]. split; [vm_compute; reflexivity|].
  apply (detector_called_once_per_word Scenario.detect _ _ _ Hsize).
Defined.

Lemma no_language_filter_no_detection_witness :
  truthy_list (Some ([] : list string)) = false
  ∧ filter_word_list Scenario.detect
      (["hello"; "a"; "the"], {["the"]}, Some []) fresh_state
    = (Ok ["hello"], fresh_state).
Proof.
  split; [reflexivity|].
  exact (no_language_filter_no_detection Scenario.detect
           ["hello"; "a"; "the"] {["the"]} (Some []) fresh_state eq_refl).
Defined.

Lemma filter_word_list_idempotent_witness :
  coherent Scenario.detect fresh_state
  ∧ (filter_word_list Scenario.detect
       (["hello"; "world"], {["the"]}, Some ["en"])
       (filter_word_list Scenario.detect
          (["hello"; "bonjour"; "the"; "world"], {["the"]}, Some ["en"])
          fresh_state).2).1
    = Ok ["hello"; "world"].
Proof.
  split; [constructor|].
  apply (filter_word_list_idempotent Scenario.detect
           ["hello"; "bonjour"; "the"; "world"] {["the"]} (Some ["en"])
           fresh_state); [constructor|].
  vm_compute. reflexivity.
Defined.

(** ** Further properties of analyzer/reader.py *)

Module LogFacts.
Import Reader Spec Notions.

Section WithReader.

Variable basename : string → string.
Variable PdfReader : string → result (list (result string)).

Abbreviation step := (_read_single_pdf basename PdfReader).

Lemma progress_app l1 l2 : progress (l1 ++ l2) = progress l1 ++ progress l2.
Proof. apply omap_app. Qed.

Lemma failures_app l1 l2 : failures (l1 ++ l2) = failures l1 ++ failures l2.
Proof. apply omap_app. Qed.

(** What one step of a thread adds to the log. *)
Lemma step_log total t sh :
  0 ≤ counter sh →
  progress (log sh) = (λ k, (k, total)) <$> seqZ 1 (counter sh) →
  ∃ extra,
    failures (log (step total t sh).2) = failures (log sh) ++ extra
    ∧ reported basename (step total t sh).1 = reported basename t ++ extra
    ∧ 0 ≤ counter (step total t sh).2
    ∧ progress (log (step total t sh).2)
      = (λ k, (k, total)) <$> seqZ 1 (counter (step total t sh).2).
Proof.
  intros Hc Hp. destruct t as [p|p x|p r|p r]; cbn [_read_single_pdf].
  - destruct (extract_local_text PdfReader p) as [x|e]; cbn [fst snd log counter].
    + exists []. by rewrite !app_nil_r.
    + exists [(basename p, e)].
      rewrite failures_app, progress_app. cbn. by rewrite app_nil_r.
  - exists []. cbn [fst snd log counter reported]. by rewrite !app_nil_r.
  - exists []. cbn [fst snd log counter].
    rewrite failures_app, progress_app, Hp.
    split_and!; [|by destruct r; rewrite app_nil_r|lia|].
    + destruct r; cbn; by rewrite app_nil_r.
    + replace (counter sh + 1) with (Z.of_nat (S (Z.to_nat (counter sh))))
        by lia.
      rewrite seqZ_S, fmap_app, Z2Nat.id by lia.
      f_equal. destruct r; cbn; do 2 f_equal; lia.
  - exists []. cbn [fst snd]. by rewrite !app_nil_r.
Qed.

Lemma pool_step_log total i st :
  log_inv basename total st →
  log_inv basename total (pool_step basename PdfReader total i st).
Proof.
  destruct st as [ts sh]. intros (Hf & Hc & Hp). unfold pool_step.
  cbn [fst snd] in *. destruct (ts !! i) as [t|] eqn:Hi; [|done].
  destruct (step_log total t sh Hc Hp) as (extra & Hf' & Hr' & Hc' & Hp').
  destruct (step total t sh) as [t' sh']. cbn [fst snd] in *.
  apply list_elem_of_split_length in Hi as (l1 & l2 & -> & ->).
  rewrite insert_app_r_alt, Nat.sub_diag by lia. cbn [insert list_insert].
  split_and!; cbn [fst snd]; [|done..].
  rewrite Hf', Hf, !fmap_app, !fmap_cons, !concat_app, !concat_cons, Hr'.
  solve_Permutation.
Qed.

Lemma run_schedule_log total sched st :
  log_inv basename total st →
  log_inv basename total (run_schedule basename PdfReader total sched st).
Proof.
  unfold run_schedule. revert st.
  induction sched as [|i sched IH]; intros st Hst; [done|].
  cbn [foldl]. apply IH. by apply pool_step_log.
Qed.

Lemma finish_thread_log total t sh :
  0 ≤ counter sh →
  progress (log sh) = (λ k, (k, total)) <$> seqZ 1 (counter sh) →
  ∃ extra,
    failures (log (finish_thread basename PdfReader total t sh).2)
    = failures (log sh) ++ extra
    ∧ reported basename (finish_thread basename PdfReader total t sh).1
      = reported basename t ++ extra
    ∧ 0 ≤ counter (finish_thread basename PdfReader total t sh).2
    ∧ progress (log (finish_thread basename PdfReader total t sh).2)
      = (λ k, (k, total))
          <$> seqZ 1 (counter (finish_thread basename PdfReader total t sh).2).
Proof.
  intros Hc Hp. unfold finish_thread.
  destruct (step_log total t sh Hc Hp) as (e1 & Hf1 & Hr1 & Hc1 & Hp1).
  destruct (step total t sh) as [t1 sh1]. cbn [fst snd] in *.
  destruct (step_log total t1 sh1 Hc1 Hp1) as (e2 & Hf2 & Hr2 & Hc2 & Hp2).
  destruct (step total t1 sh1) as [t2 sh2]. cbn [fst snd] in *.
  destruct (step_log total t2 sh2 Hc2 Hp2) as (e3 & Hf3 & Hr3 & Hc3 & Hp3).
  exists (e1 ++ e2 ++ e3). split_and!; [| |done..].
  - by rewrite Hf3, Hf2, Hf1, <-!(assoc_L (++)).
  - by rewrite Hr3, Hr2, Hr1, <-!(assoc_L (++)).
Qed.

Lemma join_threads_log_from total ts sh pre :
  failures (log sh) ≡ₚ pre ++ concat (reported basename <$> ts) →
  0 ≤ counter sh →
  progress (log sh) = (λ k, (k, total)) <$> seqZ 1 (counter sh) →
  failures (log (join_threads basename PdfReader total ts sh).2)
  ≡ₚ pre ++ concat (reported basename
                      <$> (join_threads basename PdfReader total ts sh).1)
  ∧ 0 ≤ counter (join_threads basename PdfReader total ts sh).2
  ∧ progress (log (join_threads basename PdfReader total ts sh).2)
    = (λ k, (k, total))
        <$> seqZ 1 (counter (join_threads basename PdfReader total ts sh).2).
Proof.
  revert sh pre. induction ts as [|t ts IH]; intros sh pre Hf Hc Hp; [done|].
  cbn [join_threads].
  destruct (finish_thread_log total t sh Hc Hp)
    as (extra & Hf' & Hr' & Hc' & Hp').
  destruct (finish_thread basename PdfReader total t sh) as [t' sh'].
  cbn [fst snd] in *.
  rewrite fmap_cons, concat_cons in Hf.
  specialize (IH sh' (pre ++ reported basename t')).
  destruct (join_threads basename PdfReader total ts sh') as [ts'' sh''].
  cbn [fst snd] in *.
  destruct IH as (Hf'' & Hc'' & Hp''); [|done..|].
  { rewrite Hf', Hf, Hr'. solve_Permutation. }
  split_and!; [|done..].
  by rewrite Hf'', fmap_cons, concat_cons, <-(assoc_L (++)).
Qed.

Lemma join_threads_log total ts sh :
  log_inv basename total (ts, sh) →
  log_inv basename total (join_threads basename PdfReader total ts sh).
Proof.
  intros (Hf & Hc & Hp). cbn [fst snd] in *.
  by apply (join_threads_log_from total ts sh []).
Qed.

(** The log of a complete call with a pool of at least one thread. *)
Lemma read_pdfs_log sched paths max_workers_io :
  1 ≤ max_workers_io →
  let st := (read_pdfs_in_parallel basename PdfReader sched paths
               max_workers_io).2 in
  failures (log st.2) ≡ₚ failing_files basename PdfReader paths
  ∧ progress (log st.2)
    = (λ k, (k, Z.of_nat (length paths)))
        <$> seqZ 1 (Z.of_nat (length paths)).
Proof.
  intros Hmw st.
  destruct (ReaderFacts.read_pdfs_in_parallel_run basename PdfReader sched
              paths max_workers_io Hmw)
    as (order & st0 & Hrun & _ & _ & Hcnt & Hdone & Hpaths).
  subst st. rewrite Hrun. cbn [snd].
  assert (log_inv basename (Z.of_nat (length paths)) st0) as (Hf & _ & Hp).
  { revert Hrun. unfold read_pdfs_in_parallel.
    destruct paths as [|p paths]; [by intros [= _ <-]|].
    assert ((max_workers_io <=? 0) = false) as -> by lia.
    intros [= _ <-]. apply join_threads_log.
    rewrite <-surjective_pairing. apply run_schedule_log.
    split_and!; cbn [fst snd log counter]; [|done..].
    assert (∀ l : list string,
              concat (reported basename <$> (Pending <$> l)) = [])
      as Hnil by (induction l; auto).
    replace (concat _) with ([] : list (string * exn)); [done|].
    symmetry. apply (Hnil (p :: paths)). }
  split; [|by rewrite Hp, Hcnt].
  rewrite Hf. subst paths. clear -Hdone.
  unfold failing_files. induction Hdone as [|t ts Ht _ IH]; [done|].
  rewrite !fmap_cons, concat_cons. cbn [omap list_omap].
  unfold is_done in Ht. destruct t as [p|p x|p r|p r]; try discriminate.
  cbn [path_of] in *. injection Ht as Hr. rewrite <-Hr.
  destruct r; cbn [reported app]; by rewrite IH.
Qed.

End WithReader.

End LogFacts.

(** ** Further properties of the pipeline *)

Module PipelineFacts.
Import Filters Reader Processor Spec Notions.

Lemma whitespace_only_app s1 s2 :
  whitespace_only (s1 +:+ s2) = whitespace_only s1 && whitespace_only s2.
Proof.
  induction s1 as [|a s1 IH]; [done|].
  simpl. by rewrite IH, andb_assoc.
Qed.

Lemma whitespace_only_concat sep l :
  whitespace_only sep = true →
  Forall (λ s, whitespace_only s = true) l →
  whitespace_only (String.concat sep l) = true.
Proof.
  intros Hsep. induction 1 as [|s l Hs Hl IH]; [done|].
  cbn [String.concat]. destruct l as [|s' l]; [done|].
  change (whitespace_only (s +:+ sep +:+ String.concat sep (s' :: l)) = true).
  by rewrite !whitespace_only_app, Hs, Hsep, IH.
Qed.

Lemma page_text_blank page :
  blank_page page → whitespace_only (page_text page) = true.
Proof.
  destruct page as [text|e]; [|done]. cbn [blank_page page_text].
  by destruct (String.eqb text "").
Qed.

Lemma keep_occurrences (f : string → bool) (w : string) words :
  f w = true → occurrences w (List.filter f words) = occurrences w words.
Proof.
  intros Hw. unfold occurrences. do 2 f_equal.
  induction words as [|v words IH]; [done|]. cbn [List.filter].
  destruct (decide (v = w)) as [->|Hne].
  - rewrite Hw, !filter_cons_True by done. by rewrite IH.
  - rewrite (filter_cons_False _ v words) by done.
    destruct (f v); [|done]. by rewrite filter_cons_False.
Qed.

Section WithEnvironment.

Variable isfile isdir : string → bool.
Variable listdir : string → result (list string).
Variable abspath basename lower : string → string.
Variable path_join : string → string → string.
Variable PdfReader : string → result (list (result string)).
Variable detect : string → result string.
Variable findall_words : string → list string.
Variable cpu_count : option Z.

Abbreviation find := (find_pdf_files isfile isdir listdir abspath lower path_join).
Abbreviation calc :=
  (calculate_word_frequency_and_filter isfile isdir listdir abspath basename
     lower path_join PdfReader detect findall_words cpu_count).
Abbreviation phase :=
  (filter_phase isfile isdir listdir abspath basename lower path_join
     PdfReader detect findall_words cpu_count).

Lemma extract_blank p text :
  (∀ pages, PdfReader p = Ok pages → Forall blank_page pages) →
  extract_local_text PdfReader p = Ok text → whitespace_only text = true.
Proof.
  intros Hblank. unfold extract_local_text.
  destruct (PdfReader p) as [pages|e]; [|done]. intros [= <-].
  apply whitespace_only_concat; [done|].
  apply Forall_fmap. eapply Forall_impl; [by apply Hblank|].
  intros page. apply page_text_blank.
Qed.

Lemma successful_texts_blank paths :
  (∀ p pages, p ∈ paths → PdfReader p = Ok pages → Forall blank_page pages) →
  Forall (λ s, whitespace_only s = true) (successful_texts PdfReader paths).
Proof.
  intros Hblank. unfold successful_texts. apply Forall_forall.
  intros text Ht. apply list_elem_of_omap in Ht as (p & Hp & Ht).
  destruct (extract_local_text PdfReader p) as [x|e] eqn:Hx; [|done].
  injection Ht as ->. eapply extract_blank; [|done]. intros pages.
  by apply Hblank.
Qed.

Lemma blank_corpus io cpu input_path excluded targets min_freq max_freq
    exact_freqs mw_io mw_cpu paths :
  find input_path = Ok paths → 1 ≤ mw_io →
  (∀ p pages, p ∈ paths → PdfReader p = Ok pages → Forall blank_page pages) →
  calc io cpu input_path excluded targets min_freq max_freq exact_freqs
    mw_io mw_cpu = Ok (0, ∅).
Proof.
  intros Hfind Hmw Hblank. apply ProcessorFacts.calculate_early.
  right. right.
  destruct (ReaderFacts.read_pdfs_in_parallel_run basename PdfReader io
              paths mw_io Hmw) as (order & st & Hrun & Hperm & _).
  exists paths, (String.concat " " order). rewrite Hrun.
  split_and!; [done..|]. apply whitespace_only_concat; [done|].
  rewrite Hperm. by apply successful_texts_blank.
Qed.

Lemma listing_error io cpu input_path excluded targets min_freq max_freq
    exact_freqs mw_io mw_cpu e :
  isfile input_path && endswith (lower input_path) ".pdf" = false →
  isdir input_path = true →
  listdir (abspath input_path) = Raise e →
  calc io cpu input_path excluded targets min_freq max_freq exact_freqs
    mw_io mw_cpu
  = match e with ValueError => Ok (0, ∅) | _ => Raise e end.
Proof.
  intros Hf Hd Hl. unfold calculate_word_frequency_and_filter, find_pdf_files.
  rewrite Hf, Hd, Hl. by destruct e.
Qed.

Lemma reader_pool_refused io cpu input_path excluded targets min_freq
    max_freq exact_freqs mw_io mw_cpu p paths :
  find input_path = Ok (p :: paths) → mw_io ≤ 0 →
  calc io cpu input_path excluded targets min_freq max_freq exact_freqs
    mw_io mw_cpu = Raise ValueError.
Proof.
  intros Hfind Hmw. unfold calculate_word_frequency_and_filter.
  rewrite Hfind. unfold read_pdfs_in_parallel.
  by assert ((mw_io <=? 0) = true) as -> by lia.
Qed.

Lemma process_pool_refused io cpu input_path excluded targets min_freq
    max_freq exact_freqs mw_io mw_cpu paths text :
  find input_path = Ok paths →
  (read_pdfs_in_parallel basename PdfReader io paths mw_io).1 = Ok text →
  whitespace_only text = false →
  num_processes cpu_count mw_cpu ≤ 0 →
  calc io cpu input_path excluded targets min_freq max_freq exact_freqs
    mw_io mw_cpu = Raise ValueError.
Proof.
  intros Hfind Hread Hw Hn. unfold calculate_word_frequency_and_filter.
  rewrite Hfind. destruct paths as [|p paths].
  { cbn in Hread. injection Hread as <-. done. }
  rewrite Hread, ProcessorFacts.strip_eqb, Hw.
  by rewrite ProcessorFacts.parallel_filter_refused.
Qed.

(** The placement of the chunks and the size of the process pool do not
    show in the filter phase. *)
Lemma filter_phase_pool_independent io cpu cpu' input_path excluded targets
    mw_io mw_cpu mw_cpu' :
  1 ≤ num_processes cpu_count mw_cpu →
  1 ≤ num_processes cpu_count mw_cpu' →
  phase io cpu input_path excluded targets mw_io mw_cpu
  = phase io cpu' input_path excluded targets mw_io mw_cpu'.
Proof.
  intros Hn Hn'. unfold filter_phase.
  destruct (find input_path) as [[|p paths]|e]; try done.
  destruct (read_pdfs_in_parallel _ _ _ _ _).1 as [text|e]; [|done].
  destruct (whitespace_only text); [done|].
  by rewrite !ProcessorFacts.parallel_filter_run.
Qed.

(** What a completed run says about one entry of the returned map. *)
Lemma result_entry io cpu input_path excluded targets min_freq max_freq
    exact_freqs mw_io mw_cpu n m w c :
  calc io cpu input_path excluded targets min_freq max_freq exact_freqs
    mw_io mw_cpu = Ok (n, m) →
  m !! w = Some c →
  ∃ paths text,
    find input_path = Ok paths
    ∧ (read_pdfs_in_parallel basename PdfReader io paths mw_io).1 = Ok text
    ∧ w ∈ findall_words (lower text)
    ∧ keep detect (list_to_set (lower <$> excluded)) targets w = true
    ∧ c = occurrences w (findall_words (lower text))
    ∧ 1 ≤ c ≤ n.
Proof.
  intros Hrun Hw. rewrite ProcessorFacts.calculate_shape in Hrun.
  destruct (phase io cpu input_path excluded targets mw_io mw_cpu)
    as [[fw|]|e] eqn:Hphase; [| |done].
  - injection Hrun as <- <-.
    apply ProcessorFacts.filter_phase_words in Hphase
      as (paths & text & Hfind & Hread & ->).
    eapply lookup_weaken in Hw;
      [|apply ProcessorFacts.frequency_filter_subseteq].
    rewrite TallyFacts.count_frequencies_lookup in Hw.
    case_decide as Hin; [|done]. injection Hw as <-.
    pose proof (TallyFacts.occurrences_positive _ _ Hin).
    pose proof (TallyFacts.occurrences_le_length w
                  (List.filter
                     (keep detect (list_to_set (lower <$> excluded)) targets)
                     (findall_words (lower text)))).
    apply list_elem_of_In, List.filter_In in Hin as [Hin Hkeep].
    exists paths, text. split_and!; [done|done| |done| |lia|lia].
    + by apply list_elem_of_In.
    + by rewrite keep_occurrences.
  - injection Hrun as <- <-. by rewrite lookup_empty in Hw.
Qed.

(** An empty map and a zero total go together unless a frequency filter
    removed the entries. *)
Lemma result_empty io cpu input_path excluded targets min_freq max_freq
    exact_freqs mw_io mw_cpu n m :
  calc io cpu input_path excluded targets min_freq max_freq exact_freqs
    mw_io mw_cpu = Ok (n, m) →
  0 ≤ n ∧ (m ≠ ∅ → 0 < n)
  ∧ (no_frequency_filter min_freq max_freq exact_freqs → n = 0 ↔ m = ∅).
Proof.
  intros Hrun. rewrite ProcessorFacts.calculate_shape in Hrun.
  destruct (phase io cpu input_path excluded targets mw_io mw_cpu)
    as [[fw|]|e]; [| |done]; injection Hrun as <- <-; [|done].
  split; [lia|]. split.
  - intros Hne. destruct fw as [|w fw]; [|cbn [length]; lia].
    destruct Hne. apply map_eq. intros w. rewrite lookup_empty.
    apply eq_None_not_Some. intros [c Hc].
    eapply lookup_weaken in Hc;
      [|apply ProcessorFacts.frequency_filter_subseteq].
    by rewrite TallyFacts.count_frequencies_lookup, decide_False in Hc
      by apply not_elem_of_nil.
  - intros Hnone. rewrite ProcessorFacts.frequency_filter_none by done.
    destruct fw as [|w fw]; [done|]. split; [cbn [length]; lia|].
    intros Hempty.
    assert (count_frequencies (w :: fw) !! w = None) as Hw
      by (by rewrite Hempty, lookup_empty).
    by rewrite TallyFacts.count_frequencies_lookup, decide_True in Hw
      by left.
Qed.

End WithEnvironment.

End PipelineFacts.

(** ** Further theorems: reading *)

Section ReaderTheorems.

Variable basename : string → string.
Variable PdfReader : string → result (list (result string)).

(** X11. Whatever the interleaving of the reader threads, the progress
    messages of a call report 1, 2, ..., n completed files in this order,
    each out of n, where n is the number of paths: the counter is read in
    the same critical section that increments it. *)
Theorem progress_reports_count_up
    (sched : list nat) (paths : list string) (max_workers_io : Z)
    (Hpool : 1 ≤ max_workers_io) :
  progress (log (read_pdfs_in_parallel basename PdfReader sched paths
                   max_workers_io).2.2)
  = (λ k, (k, Z.of_nat (length paths))) <$> seqZ 1 (Z.of_nat (length paths)).
Proof.
  by destruct (LogFacts.read_pdfs_log basename PdfReader sched paths
                 max_workers_io Hpool) as [_ Hprogress].
Qed.

(** X12. Whatever the interleaving, every file that cannot be read is
    reported to the logger exactly once, with its base name and its error,
    and no other failure is reported. *)
Theorem every_failure_reported_once
    (sched : list nat) (paths : list string) (max_workers_io : Z)
    (Hpool : 1 ≤ max_workers_io) :
  failures (log (read_pdfs_in_parallel basename PdfReader sched paths
                   max_workers_io).2.2)
  ≡ₚ failing_files basename PdfReader paths.
Proof.
  by destruct (LogFacts.read_pdfs_log basename PdfReader sched paths
                 max_workers_io Hpool) as [Hfailures _].
Qed.

End ReaderTheorems.

Lemma progress_reports_count_up_witness :
  1 ≤ 8
  ∧ progress (log (read_pdfs_in_parallel Scenario.basename Scenario.PdfReader
                     [1; 0; 1; 0]%nat
                     ["/data/corpus/a.pdf"; "/data/corpus/b.PDF"] 8).2.2)
    = [(1, 2); (2, 2)].
Proof.
  split; [lia|].
  exact (progress_reports_count_up Scenario.basename Scenario.PdfReader
           [1; 0; 1; 0]%nat ["/data/corpus/a.pdf"; "/data/corpus/b.PDF"] 8
           ltac:(lia)).
Defined.

Lemma every_failure_reported_once_witness :
  1 ≤ 8
  ∧ failures (log (read_pdfs_in_parallel Scenario.basename
                     Scenario.PdfReader [1; 0; 1; 0]%nat
                     ["/data/corpus/a.pdf"; "/data/corpus/b.PDF"] 8).2.2)
    ≡ₚ [("b.PDF", PdfReadError)].
Proof.
  split; [lia|].
  exact (every_failure_reported_once Scenario.basename Scenario.PdfReader
           [1; 0; 1; 0]%nat ["/data/corpus/a.pdf"; "/data/corpus/b.PDF"] 8
           ltac:(lia)).
Defined.

(** ** Further theorems: the pipeline *)

Section PipelineTheorems.

Variable isfile isdir : string → bool.
Variable listdir : string → result (list string).
Variable abspath basename lower : string → string.
Variable path_join : string → string → string.
Variable PdfReader : string → result (list (result string)).
Variable detect : string → result string.
Variable findall_words : string → list string.
Variable cpu_count : option Z.

Abbreviation find := (find_pdf_files isfile isdir listdir abspath lower path_join).
Abbreviation calc :=
  (calculate_word_frequency_and_filter isfile isdir listdir abspath basename
     lower path_join PdfReader detect findall_words cpu_count).

(** X13. A page whose extraction fails, or gives no text, stands for a
    single space and does not fail its document: a readable file alone is
    read as the texts of its pages joined by spaces, with a space for each
    such page. So when every discovered file either cannot be opened or has
    only pages that fail or hold nothing but whitespace, the pipeline ends
    with the empty result [(0, {})] (reader pool of at least one
    thread). *)
Theorem page_failures_are_recovered
    (io_sched cpu_sched : list nat) (input_path : string)
    (excluded_words : list string) (targets : option (list string))
    (min_freq max_freq : option Z) (exact_freqs : option (list Z))
    (max_workers_io : Z) (max_workers_cpu : option Z) (paths : list string)
    (Hfind : find input_path = Ok paths)
    (Hpool : 1 ≤ max_workers_io)
    (Hblank : ∀ p pages, p ∈ paths → PdfReader p = Ok pages →
                         Forall blank_page pages) :
  calc io_sched cpu_sched input_path excluded_words targets
    min_freq max_freq exact_freqs max_workers_io max_workers_cpu
  = Ok (0, ∅)
  ∧ (∀ sched p pages,
       PdfReader p = Ok pages →
       (read_pdfs_in_parallel basename PdfReader sched [p]
          max_workers_io).1
       = Ok (String.concat " " (page_or_space <$> pages))).
Proof.
  split; [by eapply PipelineFacts.blank_corpus|].
  intros sched p pages Hp.
  by apply ReaderFacts.read_single_document.
Qed.

(** X14. Only [ValueError] is turned into the empty result during
    discovery: when the input path is a directory whose listing fails, any
    other error of the listing leaves the pipeline as an exception, while a
    [ValueError] of the listing is swallowed like an invalid path. *)
Theorem listing_error_propagates
    (io_sched cpu_sched : list nat) (input_path : string)
    (excluded_words : list string) (targets : option (list string))
    (min_freq max_freq : option Z) (exact_freqs : option (list Z))
    (max_workers_io : Z) (max_workers_cpu : option Z) (e : exn)
    (Hfile : isfile input_path && endswith (lower input_path) ".pdf" = false)
    (Hdir : isdir input_path = true)
    (Hlist : listdir (abspath input_path) = Raise e) :
  calc io_sched cpu_sched input_path excluded_words targets
    min_freq max_freq exact_freqs max_workers_io max_workers_cpu
  = match e with ValueError => Ok (0, ∅) | _ => Raise e end.
Proof. by apply PipelineFacts.listing_error. Qed.

(** X15. A reader pool of zero or fewer threads is refused: as soon as a
    PDF file was discovered, the pipeline raises [ValueError] instead of
    returning a result. *)
Theorem nonpositive_reader_pool_raises
    (io_sched cpu_sched : list nat) (input_path : string)
    (excluded_words : list string) (targets : option (list string))
    (min_freq max_freq : option Z) (exact_freqs : option (list Z))
    (max_workers_io : Z) (max_workers_cpu : option Z)
    (p : string) (paths : list string)
    (Hfind : find_pdf_files isfile isdir listdir abspath lower path_join
               input_path = Ok (p :: paths))
    (Hpool : max_workers_io ≤ 0) :
  calc io_sched cpu_sched input_path excluded_words targets
    min_freq max_freq exact_freqs max_workers_io max_workers_cpu
  = Raise ValueError.
Proof. by eapply PipelineFacts.reader_pool_refused. Qed.

(** X16. A negative number of filter processes is refused: when the corpus
    holds some text and [num_processes] is not positive, the pipeline
    raises [ValueError]. *)
Theorem nonpositive_process_pool_raises
    (io_sched cpu_sched : list nat) (input_path : string)
    (excluded_words : list string) (targets : option (list string))
    (min_freq max_freq : option Z) (exact_freqs : option (list Z))
    (max_workers_io : Z) (max_workers_cpu : option Z)
    (paths : list string) (text : string)
    (Hfind : find input_path = Ok paths)
    (Hread : (read_pdfs_in_parallel basename PdfReader io_sched paths
                max_workers_io).1 = Ok text)
    (Htext : whitespace_only text = false)
    (Hpool : num_processes cpu_count max_workers_cpu ≤ 0) :
  calc io_sched cpu_sched input_path excluded_words targets
    min_freq max_freq exact_freqs max_workers_io max_workers_cpu
  = Raise ValueError.
Proof. by eapply PipelineFacts.process_pool_refused. Qed.

(** X17. The result of the pipeline does not depend on the number of
    filter processes nor on the placement of the chunks on them, as long as
    the number of processes is positive. *)
Theorem result_independent_of_process_pool
    (io_sched cpu_sched cpu_sched' : list nat) (input_path : string)
    (excluded_words : list string) (targets : option (list string))
    (min_freq max_freq : option Z) (exact_freqs : option (list Z))
    (max_workers_io : Z) (max_workers_cpu max_workers_cpu' : option Z)
    (Hpool : 1 ≤ num_processes cpu_count max_workers_cpu)
    (Hpool' : 1 ≤ num_processes cpu_count max_workers_cpu') :
  calc io_sched cpu_sched input_path excluded_words targets
    min_freq max_freq exact_freqs max_workers_io max_workers_cpu
  = calc io_sched cpu_sched' input_path excluded_words targets
      min_freq max_freq exact_freqs max_workers_io max_workers_cpu'.
Proof.
  rewrite !ProcessorFacts.calculate_shape.
  by rewrite (PipelineFacts.filter_phase_pool_independent isfile isdir
                listdir abspath basename lower path_join PdfReader detect
                findall_words cpu_count io_sched cpu_sched cpu_sched'
                input_path excluded_words targets max_workers_io
                max_workers_cpu max_workers_cpu' Hpool Hpool').
Qed.

(** X18. Every entry of the returned frequency map is a word of the
    tokenized corpus that is not excluded, has at least 2 characters and
    passes the language filter when one is set; its count is the number of
    its occurrences in the tokenized corpus, at least 1 and at most the
    returned total. *)
Theorem result_entries_pass_filters
    (io_sched cpu_sched : list nat) (input_path : string)
    (excluded_words : list string) (targets : option (list string))
    (min_freq max_freq : option Z) (exact_freqs : option (list Z))
    (max_workers_io : Z) (max_workers_cpu : option Z)
    (n : Z) (m : gmap string Z) (w : string) (c : Z)
    (Hrun : calc io_sched cpu_sched input_path excluded_words targets
              min_freq max_freq exact_freqs max_workers_io max_workers_cpu
            = Ok (n, m))
    (Hentry : m !! w = Some c) :
  ∃ paths text,
    find input_path = Ok paths
    ∧ (read_pdfs_in_parallel basename PdfReader io_sched paths
         max_workers_io).1 = Ok text
    ∧ w ∈ findall_words (lower text)
    ∧ keep detect (list_to_set (lower <$> excluded_words)) targets w = true
    ∧ c = occurrences w (findall_words (lower text))
    ∧ 1 ≤ c ≤ n.
Proof. by eapply PipelineFacts.result_entry. Qed.

(** X19. A completed run never returns a negative total; a non-empty map
    comes with a positive total; and when no frequency filter is active the
    total is 0 exactly when the map is empty. *)
Theorem empty_map_iff_zero_total
    (io_sched cpu_sched : list nat) (input_path : string)
    (excluded_words : list string) (targets : option (list string))
    (min_freq max_freq : option Z) (exact_freqs : option (list Z))
    (max_workers_io : Z) (max_workers_cpu : option Z)
    (n : Z) (m : gmap string Z)
    (Hrun : calc io_sched cpu_sched input_path excluded_words targets
              min_freq max_freq exact_freqs max_workers_io max_workers_cpu
            = Ok (n, m)) :
  0 ≤ n
  ∧ (m ≠ ∅ → 0 < n)
  ∧ (no_frequency_filter min_freq max_freq exact_freqs → n = 0 ↔ m = ∅).
Proof. by eapply PipelineFacts.result_empty. Qed.

End PipelineTheorems.

Lemma page_failures_are_recovered_witness :
  Scenario4.analyze [] [] "torn.pdf" [] None None None None 8 None
  = Ok (0, ∅)
  ∧ (read_pdfs_in_parallel Scenario.basename Scenario4.PdfReader []
       ["/data/corpus/a.pdf"] 8).1
    = Ok "Hello world   hello Bonjour".
Proof.
  destruct (page_failures_are_recovered Scenario4.isfile Scenario.isdir
              Scenario.listdir Scenario.abspath Scenario.basename
              Scenario.lower Scenario.path_join Scenario4.PdfReader
              Scenario.detect Scenario.findall_words Scenario.cpu_count
              [] [] "torn.pdf" [] None None None None 8 None
              ["/data/torn.pdf"] eq_refl ltac:(lia)) as [Hempty Hdocument].
  { intros p pages Hp Hpages.
    apply list_elem_of_singleton in Hp as ->.
    injection Hpages as <-. by repeat constructor. }
  split; [exact Hempty|].
  exact (Hdocument [] "/data/corpus/a.pdf"
           [Ok "Hello world"; Raise PdfReadError; Ok "hello Bonjour"]
           eq_refl).
Defined.

Lemma listing_error_propagates_witness :
  Scenario2.analyze [] [] "locked" [] None None None None 8 None
  = Raise OSError.
Proof.
  exact (listing_error_propagates Scenario.isfile Scenario2.isdir
           Scenario.listdir Scenario.abspath Scenario.basename Scenario.lower
           Scenario.path_join Scenario.PdfReader Scenario.detect
           Scenario.findall_words Scenario.cpu_count
           [] [] "locked" [] None None None None 8 None OSError
           eq_refl eq_refl eq_refl).
Defined.

Lemma nonpositive_reader_pool_raises_witness :
  0 ≤ 0
  ∧ Scenario.analyze [] [] "corpus" [] None None None None 0 None
    = Raise ValueError.
Proof.
  split; [lia|].
  apply (nonpositive_reader_pool_raises Scenario.isfile Scenario.isdir
           Scenario.listdir Scenario.abspath Scenario.basename Scenario.lower
           Scenario.path_join Scenario.PdfReader Scenario.detect
           Scenario.findall_words Scenario.cpu_count
           [] [] "corpus" [] None None None None 0 None
           "/data/corpus/a.pdf" ["/data/corpus/b.PDF"]);
    [reflexivity|lia].
Defined.

Lemma nonpositive_process_pool_raises_witness :
  num_processes Scenario.cpu_count (Some (-2)) ≤ 0
  ∧ Scenario.analyze [] [] "corpus" [] None None None None 8 (Some (-2))
    = Raise ValueError.
Proof.
  assert (num_processes Scenario.cpu_count (Some (-2)) ≤ 0) as Hpool
    by (vm_compute; discriminate).
  split; [exact Hpool|].
  apply (nonpositive_process_pool_raises Scenario.isfile Scenario.isdir
           Scenario.listdir Scenario.abspath Scenario.basename Scenario.lower
           Scenario.path_join Scenario.PdfReader Scenario.detect
           Scenario.findall_words Scenario.cpu_count
           [] [] "corpus" [] None None None None 8 (Some (-2))
           ["/data/corpus/a.pdf"; "/data/corpus/b.PDF"]
           "Hello world   hello Bonjour");
    [reflexivity|reflexivity|reflexivity|exact Hpool].
Defined.

Lemma result_independent_of_process_pool_witness :
  1 ≤ num_processes Scenario.cpu_count (Some 1)
  ∧ 1 ≤ num_processes Scenario.cpu_count (Some 3)
  ∧ Scenario.analyze [] [] "corpus" ["the"] (Some ["en"]) None None None 8
      (Some 1)
    = Scenario.analyze [] [2; 0; 1]%nat "corpus" ["the"] (Some ["en"]) None
        None None 8 (Some 3).
Proof.
  assert (1 ≤ num_processes Scenario.cpu_count (Some 1)) as H1
    by (vm_compute; discriminate).
  assert (1 ≤ num_processes Scenario.cpu_count (Some 3)) as H3
    by (vm_compute; discriminate).
  split; [exact H1|]. split; [exact H3|].
  exact (result_independent_of_process_pool Scenario.isfile Scenario.isdir
           Scenario.listdir Scenario.abspath Scenario.basename Scenario.lower
           Scenario.path_join Scenario.PdfReader Scenario.detect
           Scenario.findall_words Scenario.cpu_count
           [] [] [2; 0; 1]%nat "corpus" ["the"] (Some ["en"]) None None None
           8 (Some 1) (Some 3) H1 H3).
Defined.

Lemma result_entries_pass_filters_witness :
  Scenario.analyze [] [] "corpus" ["Bonjour"] None (Some 2) None None 8 None
  = Ok (3, {["hello" := 2]})
  ∧ ({["hello" := 2]} : gmap string Z) !! "hello" = Some 2
  ∧ ∃ text,
      "hello" ∈ Scenario.findall_words (Scenario.lower text)
      ∧ 2 = occurrences "hello" (Scenario.findall_words (Scenario.lower text)).
Proof.
  assert (Scenario.analyze [] [] "corpus" ["Bonjour"] None (Some 2) None None
            8 None = Ok (3, {["hello" := 2]})) as Hrun
    by (vm_compute; reflexivity).
  assert (({["hello" := 2]} : gmap string Z) !! "hello" = Some 2) as Hentry
    by (vm_compute; reflexivity).
  split; [exact Hrun|]. split; [exact Hentry|].
  destruct (result_entries_pass_filters _ _ _ _ _ _ _ _ _ _ _ _ _ _ _ _ _ _
              _ _ _ _ _ _ _ Hrun Hentry)
    as (paths & text & _ & _ & Hin & _ & Hocc & _).
  exists text. split; [exact Hin|exact Hocc].
Defined.

Lemma empty_map_iff_zero_total_witness :
  Scenario.analyze [] [] "corpus" ["Bonjour"] None (Some 2) None None 8 None
  = Ok (3, {["hello" := 2]})
  ∧ 0 ≤ 3.
Proof.
  assert (Scenario.analyze [] [] "corpus" ["Bonjour"] None (Some 2) None None
            8 None = Ok (3, {["hello" := 2]})) as Hrun
    by (vm_compute; reflexivity).
  split; [exact Hrun|].
  destruct (empty_map_iff_zero_total _ _ _ _ _ _ _ _ _ _ _ _ _ _ _ _ _ _ _
              _ _ _ _ Hrun) as [Hn _].
  exact Hn.
Defined.

(** ** Properties of the report writer and of the command line *)

Module OutputFacts.
Import Output Report.











Section WithOs.

Variable dirname : string → string.
Variable path_exists : string → bool.
Variable csv_row : list string → string.
Variable json_dump : json → string.
Variable strftime : string.

(** After the directory, the report: one file and a message, or only a
    message. *)
Lemma write_output_shape frequency_dict total_count output_format filename :
  ∃ body,
    write_output dirname path_exists csv_row json_dump strftime
      frequency_dict total_count output_format filename
    = (if negb (String.eqb
                  (dirname (effective_filename output_format filename)) "")
          && negb (path_exists
                     (dirname (effective_filename output_format filename)))
       then [MakeDirs (dirname (effective_filename output_format filename))]
       else [])
      ++ body
    ∧ files_written body
      = (if supported output_format
         then [effective_filename output_format filename] else [])
    ∧ dirs_made body = []
    ∧ (∀ d, MakeDirs d ∉ body).
Proof.
  unfold write_output.
  fold (effective_filename output_format filename).
  eexists. split; [reflexivity|]. unfold supported.
  assert (∀ (d name content : string) (m : message),
            MakeDirs d ∉ [WriteFile name content; Print m]) as Hfile.
  { intros d name content m Hd.
    repeat (apply elem_of_cons in Hd as [Hd|Hd]; try discriminate).
    by apply elem_of_nil in Hd. }
  destruct (String.eqb_spec output_format "txt") as [->|Htxt];
    [by split_and!|].
  destruct (String.eqb_spec output_format "csv") as [->|Hcsv];
    [by split_and!|].
  destruct (String.eqb_spec output_format "json") as [->|Hjson];
    [by split_and!|].
  rewrite bool_decide_eq_false_2.
  - split_and!; [done..|]. intros d Hd.
    apply list_elem_of_singleton in Hd. discriminate.
  - rewrite !elem_of_cons, elem_of_nil. tauto.
Qed.

End WithOs.

End OutputFacts.

Module CliFacts.
Import Processor Spec.

Lemma lstrip_head a s :
  isspace a = false → lstrip (String a s) = String a s.
Proof. intros Ha. cbn [lstrip]. by rewrite Ha. Qed.

Lemma rstrip_head a s :
  isspace a = false → ∃ r, rstrip (String a s) = String a r.
Proof.
  intros Ha. cbn [rstrip]. rewrite Ha, andb_false_r. by eexists.
Qed.

Lemma rstrip_idempotent s : rstrip (rstrip s) = rstrip s.
Proof.
  induction s as [|a s IH]; [done|]. cbn [rstrip].
  destruct (String.eqb (rstrip s) "" && isspace a) eqn:Hdrop; [done|].
  cbn [rstrip]. by rewrite IH, Hdrop.
Qed.

Lemma lstrip_first s :
  lstrip s = "" ∨ ∃ a r, lstrip s = String a r ∧ isspace a = false.
Proof.
  induction s as [|a s IH]; [by left|]. cbn [lstrip].
  destruct (isspace a) eqn:Ha; [done|]. right. by eexists _, _.
Qed.

Lemma strip_idempotent s : strip (strip s) = strip s.
Proof.
  unfold strip. destruct (lstrip_first s) as [->|(a & r & -> & Ha)]; [done|].
  destruct (rstrip_head a r Ha) as [r' Hr]. rewrite Hr.
  rewrite lstrip_head by done. by rewrite <-Hr, rstrip_idempotent.
Qed.

End CliFacts.

(** ** Further theorems: the report writer *)

Import Report.



Section WriterTheorems.

Variable dirname : string → string.
Variable path_exists : string → bool.
Variable csv_row : list string → string.
Variable json_dump : Output.json → string.
Variable strftime : string.

(** X22. [write_output] writes exactly one file for the formats txt, csv
    and json, under the given name or, when no name or an empty name is
    given, under [word_analysis_output.<format>]; for any other format it
    writes no file. In both cases it first creates the directory of that
    name when the name has one and it does not exist yet. *)
Theorem write_output_files
    (frequency_dict : list (string * Z)) (total_count : Z)
    (output_format : string) (filename : option string) :
  let acts := Output.write_output dirname path_exists csv_row json_dump
                strftime frequency_dict total_count output_format filename in
  let name := effective_filename output_format filename in
  files_written acts = (if supported output_format then [name] else [])
  ∧ dirs_made acts
    = (if negb (String.eqb (dirname name) "")
          && negb (path_exists (dirname name))
       then [dirname name] else [])
  ∧ (∀ d, Output.MakeDirs d ∈ acts → head acts = Some (Output.MakeDirs d)).
Proof.
  intros acts name. subst acts name.
  destruct (OutputFacts.write_output_shape dirname path_exists csv_row
              json_dump strftime frequency_dict total_count output_format
              filename) as (body & -> & Hfiles & Hdirs & Hnone).
  unfold files_written, dirs_made in *. rewrite !omap_app, Hfiles, Hdirs.
  destruct (negb _ && negb _).
  - split_and!; [done..|]. intros d Hd.
    apply elem_of_cons in Hd as [->|Hd]; [done|]. by apply Hnone in Hd.
  - split_and!; [done..|]. intros d Hd. by apply Hnone in Hd.
Qed.

End WriterTheorems.

(** ** Further theorems: the command line *)

Module CliRunFacts.
Import Processor Spec Cli Report.

Lemma actions_of_said (l : list message) : actions_of (Say <$> l) = [].
Proof. induction l as [|m l IH]; [done|]. exact IH. Qed.

Lemma actions_of_done (l : list Output.action) : actions_of (Do <$> l) = l.
Proof.
  induction l as [|a l IH]; [done|].
  unfold actions_of in *. rewrite fmap_cons. cbn [omap list_omap].
  by rewrite IH.
Qed.

Section WithEnvironment.

Variable isfile isdir : string → bool.
Variable listdir : string → result (list string).
Variable abspath basename lower : string → string.
Variable path_join : string → string → string.
Variable PdfReader : string → result (list (result string)).
Variable detect : string → result string.
Variable findall_words : string → list string.
Variable cpu_count : option Z.
Variable readlines : string → result (list string).
Variable dict_items : gmap string Z → list (string * Z).
Variable dirname : string → string.
Variable path_exists : string → bool.
Variable csv_row : list string → string.
Variable json_dump : Output.json → string.
Variable strftime : string.

Abbreviation analysis :=
  (run_analysis isfile isdir listdir abspath basename lower path_join
     PdfReader detect findall_words cpu_count).
Abbreviation entry :=
  (entry_point isfile isdir listdir abspath basename lower path_join
     PdfReader detect findall_words cpu_count readlines dict_items dirname
     path_exists csv_row json_dump strftime).

(** A non-empty map comes with a positive total, so the test on the total
    in [main] never decides. *)
Lemma analysis_total io cpu a excluded n m :
  analysis io cpu a excluded = Ok (n, m) → m ≠ ∅ → 0 < n.
Proof.
  unfold run_analysis. destruct (frequency_settings a) as [[lo hi] ex].
  intros Hrun. by apply PipelineFacts.result_empty in Hrun as (_ & Hpos & _).
Qed.

Lemma entry_outcome io cpu a :
  entry io cpu a
  = (Say <$> (load_excluded_words isfile lower readlines (exclude a)
                (exclude_file a)).2)
    ++ match analysis io cpu a
               (load_excluded_words isfile lower readlines (exclude a)
                  (exclude_file a)).1 with
       | Raise e => [Say (CriticalError e)]
       | Ok (n, m) =>
           if decide (m = ∅) then [Say NoResultsMatched]
           else Do <$> Output.write_output dirname path_exists csv_row
                         json_dump strftime (dict_items m) n
                         (output_format a) (filename a)
       end.
Proof.
  unfold entry_point, main.
  destruct (load_excluded_words _ _ _ _ _) as [excluded printed].
  cbn [fst snd].
  destruct (analysis io cpu a excluded) as [[n m]|e] eqn:Hrun; [|done].
  destruct (decide (m = ∅)) as [->|Hne].
  - rewrite bool_decide_eq_false_2 by (by intros []).
    by rewrite andb_false_r.
  - rewrite bool_decide_eq_true_2 by done.
    pose proof (analysis_total _ _ _ _ _ _ Hrun Hne) as Hpos.
    by assert ((0 <? n) = true) as -> by lia.
Qed.

(** With [-r MIN MAX] and [MAX < MIN] the analysis returns no entry. *)
Lemma inverted_range_empty io cpu a excluded lo hi n m :
  freq_range a = Some (lo, hi) → hi < lo →
  analysis io cpu a excluded = Ok (n, m) → m = ∅.
Proof.
  intros Hr Hlt. unfold run_analysis, frequency_settings. rewrite Hr.
  rewrite ProcessorFacts.calculate_shape.
  destruct (filter_phase _ _ _ _ _ _ _ _ _ _ _ _ _ _ _ _ _ _)
    as [[fw|]|e]; [| |done]; intros [= <- <-]; [|done].
  unfold frequency_filter. cbn.
  by apply TallyFacts.range_empty.
Qed.

End WithEnvironment.

Section LoadExcluded.

Variable isfile : string → bool.
Variable lower : string → string.
Variable readlines : string → result (list string).

Lemma load_excluded_shape inline excluded_file :
  ∃ file_part,
    (load_excluded_words isfile lower readlines inline excluded_file).1
    = (lower <$> inline) ++ (lower <$> file_part)
    ∧ Forall (λ w, w ≠ "" ∧ strip w = w) file_part
    ∧ ((load_excluded_words isfile lower readlines inline excluded_file).2
       ≠ [] → file_part = [])
    ∧ (∀ path lines,
         excluded_file = Some path → path ≠ "" → isfile path = true →
         readlines path = Ok lines →
         file_part = strip <$> filter (λ line, strip line ≠ "") lines
         ∧ (load_excluded_words isfile lower readlines inline
              excluded_file).2 = []).
Proof.
  unfold load_excluded_words.
  destruct excluded_file as [path|].
  2:{ exists []. by rewrite app_nil_r. }
  destruct (String.eqb_spec path "") as [->|Hpath].
  { exists []. rewrite app_nil_r. split_and!; [done..|]. by intros ? ? [= <-]. }
  destruct (isfile path) eqn:Hfile; cbn [negb].
  2:{ exists []. rewrite app_nil_r. split_and!; [done..|].
      intros ? ? [= <-]. congruence. }
  destruct (readlines path) as [lines|e] eqn:Hlines.
  2:{ exists []. rewrite app_nil_r. split_and!; [done..|].
      intros ? ? [= <-]. congruence. }
  exists (strip <$> filter (λ line, strip line ≠ "") lines). cbn [fst snd].
  split_and!.
  - by rewrite <-list_fmap_compose.
  - apply Forall_fmap, Forall_forall. intros line Hline.
    apply list_elem_of_filter in Hline as [Hline _]. cbn.
    split; [done|apply CliFacts.strip_idempotent].
  - done.
  - intros ? ? [= <-] _ _. rewrite Hlines. by intros [= <-].
Qed.

End LoadExcluded.

End CliRunFacts.

Section CliTheorems.

Variable isfile isdir : string → bool.
Variable listdir : string → result (list string).
Variable abspath basename lower : string → string.
Variable path_join : string → string → string.
Variable PdfReader : string → result (list (result string)).
Variable detect : string → result string.
Variable findall_words : string → list string.
Variable cpu_count : option Z.
Variable readlines : string → result (list string).
Variable dict_items : gmap string Z → list (string * Z).
Variable dirname : string → string.
Variable path_exists : string → bool.
Variable csv_row : list string → string.
Variable json_dump : Output.json → string.
Variable strftime : string.

Abbreviation analysis :=
  (Cli.run_analysis isfile isdir listdir abspath basename lower path_join
     PdfReader detect findall_words cpu_count).
Abbreviation entry :=
  (Cli.entry_point isfile isdir listdir abspath basename lower path_join
     PdfReader detect findall_words cpu_count readlines dict_items dirname
     path_exists csv_row json_dump strftime).
Abbreviation load := (Cli.load_excluded_words isfile lower readlines).

(** X23. [load_excluded_words] returns the inline words in lower case,
    followed by the lower-cased words of the file; the words taken from
    the file are its lines with the surrounding whitespace removed, blank
    lines left out, so none of them is empty or has surrounding
    whitespace. Without a file name nothing is printed; when the file is
    missing, or exists and cannot be read, a message naming it is printed
    and only the inline words are returned. *)
Theorem excluded_words_loaded
    (inline_excluded : list string) (excluded_file : option string) :
  (excluded_file = None ∨ excluded_file = Some "" →
     load inline_excluded excluded_file = (lower <$> inline_excluded, []))
  ∧ (∀ path,
       excluded_file = Some path → path ≠ "" → isfile path = false →
       load inline_excluded excluded_file
       = (lower <$> inline_excluded, [Cli.ExcludeFileNotFound path]))
  ∧ (∀ path e,
       excluded_file = Some path → path ≠ "" → isfile path = true →
       readlines path = Raise e →
       load inline_excluded excluded_file
       = (lower <$> inline_excluded, [Cli.ExcludeFileUnreadable path e]))
  ∧ (∀ path lines,
       excluded_file = Some path → path ≠ "" → isfile path = true →
       readlines path = Ok lines →
       load inline_excluded excluded_file
       = ((lower <$> inline_excluded)
          ++ (lower <$> (strip <$> filter (λ line, strip line ≠ "") lines)),
          []))
  ∧ (∃ file_part,
       (load inline_excluded excluded_file).1
       = (lower <$> inline_excluded) ++ (lower <$> file_part)
       ∧ Forall (λ w, w ≠ "" ∧ strip w = w) file_part
       ∧ ((load inline_excluded excluded_file).2 ≠ [] → file_part = [])
       ∧ (∀ path lines,
            excluded_file = Some path → path ≠ "" → isfile path = true →
            readlines path = Ok lines →
            file_part = strip <$> filter (λ line, strip line ≠ "") lines
            ∧ (load inline_excluded excluded_file).2 = [])).
Proof.
  split_and!; [..|apply CliRunFacts.load_excluded_shape].
  - by intros [->| ->].
  - intros path -> Hpath Hfile. unfold Cli.load_excluded_words.
    apply String.eqb_neq in Hpath. by rewrite Hpath, Hfile.
  - intros path e -> Hpath Hfile Hlines. unfold Cli.load_excluded_words.
    apply String.eqb_neq in Hpath. by rewrite Hpath, Hfile, Hlines.
  - intros path lines -> Hpath Hfile Hlines. unfold Cli.load_excluded_words.
    apply String.eqb_neq in Hpath. rewrite Hpath, Hfile, Hlines.
    cbn [negb]. by rewrite <-list_fmap_compose.
Qed.

(** X24. A run of the command line ends in one of three ways, after the
    messages of [load_excluded_words]: the pipeline raised, and a critical
    error is printed; it returned an empty map, and "no results" is
    printed; or it returned a non-empty map, and [write_output] runs on it.
    The test [total_count > 0] never decides: a non-empty map always comes
    with a positive total. *)
Theorem command_line_outcomes (io_sched cpu_sched : list nat) (a : Cli.args) :
  entry io_sched cpu_sched a
  = (Cli.Say <$> (load (Cli.exclude a) (Cli.exclude_file a)).2)
    ++ match analysis io_sched cpu_sched a
               (load (Cli.exclude a) (Cli.exclude_file a)).1 with
       | Raise e => [Cli.Say (Cli.CriticalError e)]
       | Ok (n, m) =>
           if decide (m = ∅) then [Cli.Say Cli.NoResultsMatched]
           else Cli.Do <$> Output.write_output dirname path_exists csv_row
                             json_dump strftime (dict_items m) n
                             (Cli.output_format a) (Cli.filename a)
       end.
Proof. apply CliRunFacts.entry_outcome. Qed.

(** X25. With a frequency range whose maximum is below its minimum the
    command line writes nothing: no directory is made and no file is
    written, whatever the documents hold. *)
Theorem inverted_range_writes_nothing
    (io_sched cpu_sched : list nat) (a : Cli.args) (lo hi : Z)
    (Hrange : Cli.freq_range a = Some (lo, hi))
    (Hinverted : hi < lo) :
  actions_of (entry io_sched cpu_sched a) = [].
Proof.
  rewrite CliRunFacts.entry_outcome. unfold actions_of.
  rewrite omap_app. fold (actions_of (Cli.Say <$> (load (Cli.exclude a)
                                                    (Cli.exclude_file a)).2)).
  rewrite CliRunFacts.actions_of_said.
  destruct (analysis io_sched cpu_sched a _) as [[n m]|e] eqn:Hrun; [|done].
  apply (CliRunFacts.inverted_range_empty _ _ _ _ _ _ _ _ _ _ _ _ _ _ _ lo hi)
    in Hrun; [|done..].
  subst m. by rewrite decide_True.
Qed.

End CliTheorems.

Lemma excluded_words_loaded_witness :
  Cli.load_excluded_words Scenario3.isfile Scenario.lower Scenario3.readlines
    ["A"] (Some "nope.txt")
  = (["a"], [Cli.ExcludeFileNotFound "nope.txt"])
  ∧ Cli.load_excluded_words Scenario3.isfile Scenario.lower
      Scenario3.readlines ["A"] (Some "notes.txt")
    = (["a"], [Cli.ExcludeFileUnreadable "notes.txt" OSError])
  ∧ Cli.load_excluded_words Scenario3.isfile Scenario.lower
      Scenario3.readlines ["A"] (Some "stop.txt")
    = (["a"; "the"; "world"], []).
Proof.
  split_and!.
  - destruct (excluded_words_loaded Scenario3.isfile Scenario.lower
                Scenario3.readlines ["A"] (Some "nope.txt"))
      as (_ & Hmissing & _).
    apply (Hmissing "nope.txt"); [reflexivity|discriminate|reflexivity].
  - destruct (excluded_words_loaded Scenario3.isfile Scenario.lower
                Scenario3.readlines ["A"] (Some "notes.txt"))
      as (_ & _ & Hunreadable & _).
    apply (Hunreadable "notes.txt" OSError);
      [reflexivity|discriminate|reflexivity|reflexivity].
  - destruct (excluded_words_loaded Scenario3.isfile Scenario.lower
                Scenario3.readlines ["A"] (Some "stop.txt"))
      as (_ & _ & _ & Hread & _).
    exact (Hread "stop.txt" _ eq_refl ltac:(discriminate) eq_refl eq_refl).
Defined.

Lemma inverted_range_writes_nothing_witness :
  5 < 9
  ∧ actions_of
      (Scenario3.entry_point [] []
         (Cli.Args "corpus" [] None (Some (9, 5)) None [] "csv" None))
    = [].
Proof.
  split; [lia|].
  apply (inverted_range_writes_nothing Scenario3.isfile Scenario.isdir
           Scenario.listdir Scenario.abspath Scenario.basename Scenario.lower
           Scenario.path_join Scenario.PdfReader Scenario.detect
           Scenario.findall_words Scenario.cpu_count Scenario3.readlines
           Scenario3.dict_items Scenario3.dirname Scenario3.path_exists
           Scenario3.csv_row Scenario3.json_dump Scenario3.strftime
           [] []
           (Cli.Args "corpus" [] None (Some (9, 5)) None [] "csv" None) 9 5
           eq_refl).
  lia.
Defined.
